(** * State-variable shadowing detector (slither/detectors/shadowing/state.py)

  A shallow embedding of [StateShadowing.detect_shadowing] and
  [StateShadowing._detect], and the properties of the detector proved
  over it.

  The detector reads an object graph built by the front end: contracts,
  variables, functions and modifiers are Python objects, compared by
  identity and read through their attributes.  The graph is modelled as a
  store: an object is a reference (a natural number), and an attribute
  access is a lookup of the reference in the store.  Two references are
  the same object exactly when they are the same number, so cyclic and
  shared structure (a variable listed by the contract that declares it
  and by every contract that inherits it) is represented directly. *)

From Stdlib Require Import String Ascii Arith Bool Lia List.
From Stdlib Require Import Permutation.
Import ListNotations.

(** ** The object graph *)

Definition ContractRef := nat.
Definition VariableRef := nat.
Definition FunctionRef := nat.

(** A function or a modifier: only [is_implemented] is read. *)
Module FunctionOrModifier.
Record t := mk { is_implemented : bool }.
End FunctionOrModifier.

(** A state variable.  [contract] is the declaring contract; the attribute
  can hold Python's [None], which is [None] here. *)
Module StateVariable.
Record t := mk {
  name : string;
  contract : option ContractRef;
  source_mapping_str : string
}.
End StateVariable.

(** A contract.  [inheritance] is the list of its ancestors; [variables]
  lists the variables visible in the contract, its own and the inherited
  ones. *)
Module Contract.
Record t := mk {
  name : string;
  inheritance : list ContractRef;
  variables : list VariableRef;
  functions : list FunctionRef;
  modifiers : list FunctionRef
}.
End Contract.

Record Graph := mkGraph {
contract_at : ContractRef -> Contract.t;
variable_at : VariableRef -> StateVariable.t;
function_at : FunctionRef -> FunctionOrModifier.t
}.

(** ** Exceptions

  [_detect] indexes a list and reads an attribute of [v.contract]; both
  can raise in Python.  The result of a computation that can raise is
  either a value or the exception. *)

Inductive exn := AttributeError | IndexError.

Inductive result (A : Type) :=
| Ok (a : A)
| Raise (e : exn).

Arguments Ok {A} a.
Arguments Raise {A} e.

Definition bind {A B} (m : result A) (k : A -> result B) : result B :=
match m with
| Ok a => k a
| Raise e => Raise e
end.

Notation "x <- m ;; k" := (bind m (fun x => k))
(at level 61, m at next level, right associativity).

(** ** The reporting interface of AbstractDetector

  [StateShadowing] inherits [generate_json_result] and
  [add_variables_to_json] from [AbstractDetector], which is not part of
  the module at hand: the detector is stated over any implementation of
  the two.  [add_variables_to_json] updates the entry in place; here it
  returns the updated entry. *)

Class AbstractDetector (json : Type) := {
generate_json_result : string -> json;
add_variables_to_json : list VariableRef -> json -> json
}.

(** ** The detector *)

Definition newline : string := String (ascii_of_nat 10) EmptyString.
Definition tab : string := String (ascii_of_nat 9) EmptyString.

Section StateShadowing.

Variable g : Graph.

(** [v.contract == c]: both sides are objects (or [None]), compared by
    identity. *)
Definition owned_by (c : ContractRef) (v : VariableRef) : bool :=
  match StateVariable.contract (variable_at g v) with
  | Some o => Nat.eqb o c
  | None => false
  end.

(** [any(f.is_implemented for f in father.functions + father.modifiers)] *)
Definition any_implemented (father : ContractRef) : bool :=
  existsb (fun f => FunctionOrModifier.is_implemented (function_at g f))
          (Contract.functions (contract_at g father)
             ++ Contract.modifiers (contract_at g father)).

(** [v.name == var.name] *)
Definition same_name (var v : VariableRef) : bool :=
  String.eqb (StateVariable.name (variable_at g v))
             (StateVariable.name (variable_at g var)).

(** The first loop of [detect_shadowing]: one step per father, extending
    [variables_fathers]. *)
Definition add_father (variables_fathers : list VariableRef)
           (father : ContractRef) : list VariableRef :=
  if any_implemented father
  then variables_fathers
         ++ filter (owned_by father)
                   (Contract.variables (contract_at g father))
  else variables_fathers.

Definition variables_fathers (contract : ContractRef) : list VariableRef :=
  fold_left add_father (Contract.inheritance (contract_at g contract)) [].

(** The second loop: one step per own variable, extending [ret]. *)
Definition add_shadow (variables_fathers : list VariableRef)
           (ret : list (list VariableRef)) (var : VariableRef)
  : list (list VariableRef) :=
  let shadow := filter (same_name var) variables_fathers in
  match shadow with
  | [] => ret
  | _ :: _ => ret ++ [var :: shadow]
  end.

Definition detect_shadowing (contract : ContractRef)
  : list (list VariableRef) :=
  let variables_fathers := variables_fathers contract in
  fold_left (add_shadow variables_fathers)
            (filter (owned_by contract)
                    (Contract.variables (contract_at g contract)))
            [].

(** *** [_detect] *)

Context {json : Type} {detector : AbstractDetector json}.

(** [v.contract.name]: raises when [v.contract] is [None]. *)
Definition contract_name (v : VariableRef) : result string :=
  match StateVariable.contract (variable_at g v) with
  | Some c => Ok (Contract.name (contract_at g c))
  | None => Raise AttributeError
  end.

(** ['{}.{} ({})'.format(v.contract.name, v.name, v.source_mapping_str)] *)
Definition format_variable (v : VariableRef) : result string :=
  cname <- contract_name v ;;
  Ok (cname ++ "." ++ StateVariable.name (variable_at g v) ++ " ("
        ++ StateVariable.source_mapping_str (variable_at g v) ++ ")")%string.

(** [for var in variables: info += "\t- {}.{} ({})\n".format(...)] *)
Fixpoint append_shadowed (info : string) (variables : list VariableRef)
  : result string :=
  match variables with
  | [] => Ok info
  | var :: rest =>
      txt <- format_variable var ;;
      append_shadowed (info ++ tab ++ "- " ++ txt ++ newline)%string rest
  end.

(** The body of the loop over [shadowing]: the entry of one group. *)
Definition report (all_variables : list VariableRef) : result json :=
  shadow <- match all_variables with
            | v :: _ => Ok v
            | [] => Raise IndexError
            end ;;
  let variables := tl all_variables in
  txt <- format_variable shadow ;;
  info <- append_shadowed (txt ++ " shadows:" ++ newline)%string variables ;;
  let json := generate_json_result info in
  Ok (add_variables_to_json all_variables json).

(** [for all_variables in shadowing: ... results.append(json)] *)
Fixpoint report_all (results : list json)
         (shadowing : list (list VariableRef)) : result (list json) :=
  match shadowing with
  | [] => Ok results
  | all_variables :: rest =>
      json <- report all_variables ;;
      report_all (results ++ [json]) rest
  end.

(** [for c in self.contracts: ...] *)
Fixpoint detect_from (results : list json) (contracts : list ContractRef)
  : result (list json) :=
  match contracts with
  | [] => Ok results
  | c :: rest =>
      let shadowing := detect_shadowing c in
      results' <- match shadowing with
                  | [] => Ok results
                  | _ :: _ => report_all results shadowing
                  end ;;
      detect_from results' rest
  end.

(** [_detect], with [self.contracts] as its argument. *)
Definition _detect (contracts : list ContractRef) : result (list json) :=
  detect_from [] contracts.

End StateShadowing.

Arguments _detect g {json detector} contracts.
Arguments report g {json detector} all_variables.

(** ** The two loops of [detect_shadowing], read as comprehensions *)

Section Views.

Variable g : Graph.

(** The variables one father contributes to [variables_fathers]. *)
Definition father_part (father : ContractRef) : list VariableRef :=
  if any_implemented g father
  then filter (owned_by g father) (Contract.variables (contract_at g father))
  else [].

(** The second loop's [shadow] for the variable [var] of [c]. *)
Definition shadow_of (c : ContractRef) (var : VariableRef) : list VariableRef :=
  filter (same_name g var) (variables_fathers g c).

(** [if shadow:] *)
Definition is_shadowing (c : ContractRef) (var : VariableRef) : bool :=
  match shadow_of c var with [] => false | _ :: _ => true end.

(** The variables the second loop runs over: those of [c.variables] that
    [c] declares itself, in the order of [c.variables]. *)
Definition own_variables (c : ContractRef) : list VariableRef :=
  filter (owned_by g c) (Contract.variables (contract_at g c)).

(** The part of a group's tail that comes from the father [father], for the
    shadowing variable [var]. *)
Definition shadowed_in (var : VariableRef) (father : ContractRef)
  : list VariableRef :=
  if any_implemented g father
  then filter (fun w => owned_by g father w && same_name g var w)
              (Contract.variables (contract_at g father))
  else [].

(** A contract is live when one of its functions or modifiers has an
    implemented body. *)
Definition live (c : ContractRef) : Prop :=
  exists f,
    In f (Contract.functions (contract_at g c)
            ++ Contract.modifiers (contract_at g c))
    /\ FunctionOrModifier.is_implemented (function_at g f) = true.


(** The input invariants whose violation the documentation calls a
    programmer error: a contract listed among its own ancestors, or a
    variable of the contract with no declaring contract. *)
Definition invariant_violation (c : ContractRef) : Prop :=
  In c (Contract.inheritance (contract_at g c))
  \/ exists v, In v (Contract.variables (contract_at g c))
               /\ StateVariable.contract (variable_at g v) = None.

(** *** The entry of a group, as a total function *)

Context {json : Type} {detector : AbstractDetector json}.

Definition owner_name (v : VariableRef) : string :=
  match StateVariable.contract (variable_at g v) with
  | Some c => Contract.name (contract_at g c)
  | None => EmptyString
  end.

Definition variable_text (v : VariableRef) : string :=
  (owner_name v ++ "." ++ StateVariable.name (variable_at g v) ++ " ("
     ++ StateVariable.source_mapping_str (variable_at g v) ++ ")")%string.

Fixpoint shadowed_text (variables : list VariableRef) : string :=
  match variables with
  | [] => EmptyString
  | var :: rest =>
      ((tab ++ "- " ++ variable_text var ++ newline) ++ shadowed_text rest)%string
  end.

Definition info_text (all_variables : list VariableRef) : string :=
  match all_variables with
  | [] => EmptyString
  | shadow :: variables =>
      ((variable_text shadow ++ " shadows:" ++ newline)
         ++ shadowed_text variables)%string
  end.

Definition diagnostic (all_variables : list VariableRef) : json :=
  add_variables_to_json all_variables
                        (generate_json_result (info_text all_variables)).

(** The entries of one contract and of a batch. *)
Definition contract_diagnostics (c : ContractRef) : list json :=
  map diagnostic (detect_shadowing g c).

Definition batch_diagnostics (contracts : list ContractRef) : list json :=
  flat_map contract_diagnostics contracts.

Definition has_owner (v : VariableRef) : Prop :=
  StateVariable.contract (variable_at g v) <> None.

End Views.

Arguments diagnostic g {json detector} all_variables.
Arguments contract_diagnostics g {json detector} c.
Arguments batch_diagnostics g {json detector} contracts.

(** [all_variables[0]] is [v]. *)
Definition headed_by (v : VariableRef) (all_variables : list VariableRef) : bool :=
  match all_variables with
  | shadow :: _ => Nat.eqb shadow v
  | [] => false
  end.

(** Two graphs with the same objects behind every reference. *)
Definition same_graph (g1 g2 : Graph) : Prop :=
  (forall c, contract_at g1 c = contract_at g2 c)
  /\ (forall v, variable_at g1 v = variable_at g2 v)
  /\ (forall f, function_at g1 f = function_at g2 f).

(** ** Example graphs

    A graph is written as three tables; a reference is an index into its
    table, and a reference past the end of a table is an object with no
    content. *)

Definition graph_of (contracts : list Contract.t)
           (variables : list StateVariable.t)
           (functions : list FunctionOrModifier.t) : Graph :=
  mkGraph (fun c => nth c contracts (Contract.mk EmptyString [] [] [] []))
          (fun v => nth v variables (StateVariable.mk EmptyString None EmptyString))
          (fun f => nth f functions (FunctionOrModifier.mk false)).

(** An implementation of the reporting interface to run [_detect] with: an
    entry is its description and the variables added to it. *)
#[export] Instance plain_entries : AbstractDetector (string * list VariableRef) := {
  generate_json_result info := (info, []);
  add_variables_to_json variables d := (fst d, snd d ++ variables)
}.

(** The contracts of the detector's documentation: [BaseContract] declares
    [owner] and the modifier [isOwner]; [DerivedContract] inherits it and
    declares [owner] again. *)
Module Wiki.
Definition BaseContract : ContractRef := 0.
Definition DerivedContract : ContractRef := 1.
Definition base_owner : VariableRef := 0.
Definition derived_owner : VariableRef := 1.
Definition isOwner : FunctionRef := 0.
Definition constructor : FunctionRef := 1.
Definition withdraw : FunctionRef := 2.
Definition graph : Graph :=
  graph_of
    [ Contract.mk "BaseContract" [] [base_owner] [] [isOwner];
      Contract.mk "DerivedContract" [BaseContract] [derived_owner]
                  [constructor; withdraw] [isOwner] ]
    [ StateVariable.mk "owner" (Some BaseContract) "wiki.sol#2";
      StateVariable.mk "owner" (Some DerivedContract) "wiki.sol#12" ]
    [ FunctionOrModifier.mk true; FunctionOrModifier.mk true;
      FunctionOrModifier.mk true ].
End Wiki.

(** The same two contracts, but [BaseContract] has a single function and it
    has no body, and [DerivedContract] has none. *)
Module Dead.
Definition BaseContract : ContractRef := 0.
Definition DerivedContract : ContractRef := 1.
Definition base_owner : VariableRef := 0.
Definition derived_owner : VariableRef := 1.
Definition graph : Graph :=
  graph_of
    [ Contract.mk "BaseContract" [] [base_owner] [0] [];
      Contract.mk "DerivedContract" [BaseContract] [derived_owner] [0] [] ]
    [ StateVariable.mk "owner" (Some BaseContract) "dead.sol#2";
      StateVariable.mk "owner" (Some DerivedContract) "dead.sol#7" ]
    [ FunctionOrModifier.mk false ].
End Dead.

(** A diamond: [A] declares [x] and an implemented function; [B] and [C]
    inherit [A]; [D] and [E] inherit [B] and [C]; [E] declares [x] again.
    The inherited [x] and the inherited function are listed by every
    descendant that does not redeclare them. *)
Module Diamond.
Definition A : ContractRef := 0.
Definition B : ContractRef := 1.
Definition C : ContractRef := 2.
Definition D : ContractRef := 3.
Definition E : ContractRef := 4.
Definition x_A : VariableRef := 0.
Definition x_E : VariableRef := 1.
Definition graph : Graph :=
  graph_of
    [ Contract.mk "A" [] [x_A] [0] [];
      Contract.mk "B" [A] [x_A] [0] [];
      Contract.mk "C" [A] [x_A] [0] [];
      Contract.mk "D" [C; B; A] [x_A] [0] [];
      Contract.mk "E" [C; B; A] [x_E] [0] [] ]
    [ StateVariable.mk "x" (Some A) "diamond.sol#2";
      StateVariable.mk "x" (Some E) "diamond.sol#9" ]
    [ FunctionOrModifier.mk true ].
End Diamond.

(** A chain: [A] declares [flag] and an implemented modifier; [B] inherits
    [A] and declares [flag] again; [C] inherits [B] and declares [flag] a
    third time.  [C.inheritance] lists [B], then [A]. *)
Module Chain.
Definition A : ContractRef := 0.
Definition B : ContractRef := 1.
Definition C : ContractRef := 2.
Definition flag_A : VariableRef := 0.
Definition flag_B : VariableRef := 1.
Definition flag_C : VariableRef := 2.
Definition graph : Graph :=
  graph_of
    [ Contract.mk "A" [] [flag_A] [] [0];
      Contract.mk "B" [A] [flag_B] [] [0];
      Contract.mk "C" [B; A] [flag_C] [] [0] ]
    [ StateVariable.mk "flag" (Some A) "chain.sol#2";
      StateVariable.mk "flag" (Some B) "chain.sol#6";
      StateVariable.mk "flag" (Some C) "chain.sol#9" ]
    [ FunctionOrModifier.mk true ].
End Chain.

(** Names that differ in case only: [Owner] in the base contract, [owner]
    in the derived one. *)
Module Case.
Definition BaseContract : ContractRef := 0.
Definition DerivedContract : ContractRef := 1.
Definition base_Owner : VariableRef := 0.
Definition derived_owner : VariableRef := 1.
Definition graph : Graph :=
  graph_of
    [ Contract.mk "BaseContract" [] [base_Owner] [0] [];
      Contract.mk "DerivedContract" [BaseContract] [derived_owner] [0] [] ]
    [ StateVariable.mk "Owner" (Some BaseContract) "case.sol#2";
      StateVariable.mk "owner" (Some DerivedContract) "case.sol#7" ]
    [ FunctionOrModifier.mk true ].
End Case.

(** Graphs that break the input invariants.  [Loop] lists itself among its
    ancestors.  [Holder] inherits [Parent] and lists a variable [y] that has
    no declaring contract; [Parent] declares a [y] too.  [Child] is a
    well-formed contract that inherits [Parent] and declares [y] again. *)
Module Malformed.
Definition Loop : ContractRef := 0.
Definition Holder : ContractRef := 1.
Definition Parent : ContractRef := 2.
Definition Child : ContractRef := 3.
Definition x_Loop : VariableRef := 0.
Definition y_Parent : VariableRef := 1.
Definition y_orphan : VariableRef := 2.
Definition y_Child : VariableRef := 3.
Definition graph : Graph :=
  graph_of
    [ Contract.mk "Loop" [Loop] [x_Loop] [0] [];
      Contract.mk "Holder" [Parent] [y_orphan] [0] [];
      Contract.mk "Parent" [] [y_Parent] [0] [];
      Contract.mk "Child" [Parent] [y_Child] [0] [] ]
    [ StateVariable.mk "x" (Some Loop) "bad.sol#2";
      StateVariable.mk "y" (Some Parent) "bad.sol#6";
      StateVariable.mk "y" None "bad.sol#9";
      StateVariable.mk "y" (Some Child) "bad.sol#12" ]
    [ FunctionOrModifier.mk true ].
End Malformed.

(** The contracts of the documentation under other names and source
    positions: the derived contract has no function and no modifier of its
    own, and the base contract inherits a third contract, [Other], that
    declares an [owner] too. *)
Module Variant.
Definition Base : ContractRef := 0.
Definition Derived : ContractRef := 1.
Definition Other : ContractRef := 2.
Definition base_owner : VariableRef := 0.
Definition derived_owner : VariableRef := 1.
Definition other_owner : VariableRef := 2.
Definition graph : Graph :=
  graph_of
    [ Contract.mk "Base" [Other] [base_owner] [] [0];
      Contract.mk "Derived" [Base] [derived_owner] [] [];
      Contract.mk "Other" [] [other_owner] [0] [] ]
    [ StateVariable.mk "owner" (Some Base) "variant.sol#3";
      StateVariable.mk "owner" (Some Derived) "variant.sol#8";
      StateVariable.mk "owner" (Some Other) "variant.sol#1" ]
    [ FunctionOrModifier.mk true ].
End Variant.

(** The chain with the ancestors of [C] listed the other way round: [A],
    then [B]. *)
Module ChainReordered.
Definition graph : Graph :=
  graph_of
    [ Contract.mk "A" [] [Chain.flag_A] [] [0];
      Contract.mk "B" [Chain.A] [Chain.flag_B] [] [0];
      Contract.mk "C" [Chain.A; Chain.B] [Chain.flag_C] [] [0] ]
    [ StateVariable.mk "flag" (Some Chain.A) "chain.sol#2";
      StateVariable.mk "flag" (Some Chain.B) "chain.sol#6";
      StateVariable.mk "flag" (Some Chain.C) "chain.sol#9" ]
    [ FunctionOrModifier.mk true ].
End ChainReordered.

(** Graphs with repeated entries.  In each, [A] is live and declares
    [x], and [C] inherits [A] and declares [x] again. *)

(** [C] declares two variables named [x]. *)
Module TwoOwn.
Definition A : ContractRef := 0.
Definition C : ContractRef := 1.
Definition x_A : VariableRef := 0.
Definition x_C : VariableRef := 1.
Definition x_C' : VariableRef := 2.
Definition graph : Graph :=
  graph_of
    [ Contract.mk "A" [] [x_A] [0] [];
      Contract.mk "C" [A] [x_C; x_C'] [0] [] ]
    [ StateVariable.mk "x" (Some A) "two_own.sol#2";
      StateVariable.mk "x" (Some C) "two_own.sol#6";
      StateVariable.mk "x" (Some C) "two_own.sol#7" ]
    [ FunctionOrModifier.mk true ].
End TwoOwn.

(** [A.variables] lists the variable of [A] twice. *)
Module ListedTwice.
Definition A : ContractRef := 0.
Definition C : ContractRef := 1.
Definition x_A : VariableRef := 0.
Definition x_C : VariableRef := 1.
Definition graph : Graph :=
  graph_of
    [ Contract.mk "A" [] [x_A; x_A] [0] [];
      Contract.mk "C" [A] [x_C] [0] [] ]
    [ StateVariable.mk "x" (Some A) "listed_twice.sol#2";
      StateVariable.mk "x" (Some C) "listed_twice.sol#6" ]
    [ FunctionOrModifier.mk true ].
End ListedTwice.

(** [C.inheritance] lists [A] twice. *)
Module RepeatedAncestor.
Definition A : ContractRef := 0.
Definition C : ContractRef := 1.
Definition x_A : VariableRef := 0.
Definition x_C : VariableRef := 1.
Definition graph : Graph :=
  graph_of
    [ Contract.mk "A" [] [x_A] [0] [];
      Contract.mk "C" [A; A] [x_C] [0] [] ]
    [ StateVariable.mk "x" (Some A) "repeated.sol#2";
      StateVariable.mk "x" (Some C) "repeated.sol#6" ]
    [ FunctionOrModifier.mk true ].
End RepeatedAncestor.

(** [A] declares two variables named [x]. *)
Module TwoNames.
Definition A : ContractRef := 0.
Definition C : ContractRef := 1.
Definition x_A : VariableRef := 0.
Definition x_C : VariableRef := 1.
Definition x_A' : VariableRef := 2.
Definition graph : Graph :=
  graph_of
    [ Contract.mk "A" [] [x_A; x_A'] [0] [];
      Contract.mk "C" [A] [x_C] [0] [] ]
    [ StateVariable.mk "x" (Some A) "two_names.sol#2";
      StateVariable.mk "x" (Some C) "two_names.sol#7";
      StateVariable.mk "x" (Some A) "two_names.sol#3" ]
    [ FunctionOrModifier.mk true ].
End TwoNames.

(** [C.variables] lists the variable of [C] twice. *)
Module OwnListedTwice.
Definition A : ContractRef := 0.
Definition C : ContractRef := 1.
Definition x_A : VariableRef := 0.
Definition x_C : VariableRef := 1.
Definition graph : Graph :=
  graph_of
    [ Contract.mk "A" [] [x_A] [0] [];
      Contract.mk "C" [A] [x_C; x_C] [0] [] ]
    [ StateVariable.mk "x" (Some A) "own_twice.sol#2";
      StateVariable.mk "x" (Some C) "own_twice.sol#6" ]
    [ FunctionOrModifier.mk true ].
End OwnListedTwice.

(** ** Runs over a store of list objects

    A Python list is an object that the program can change in place and
    that can be reached from several places.  To speak of two runs, one
    after the other, the lists are placed in a store: a list is an address,
    the store gives its elements, and a run takes the store it starts in to
    its result and the store it leaves.  The lists of a contract
    ([inheritance], [variables], [functions], [modifiers]) are addresses of
    the store; the lists the detector builds and changes in place
    ([ret], [variables_fathers], the groups) are allocated in it.  The
    values of comprehensions and of [+], which the detector only reads, are
    plain lists.  A loop runs over the elements its list has when the loop
    starts. *)

Definition Address := nat.

Record Store := mkStore {
  cells : Address -> list nat;
  next : Address
}.

Definition Run (A : Type) : Type := Store -> A * Store.

Definition unit_run {A : Type} (a : A) : Run A := fun s => (a, s).

Definition then_run {A B : Type} (m : Run A) (k : A -> Run B) : Run B :=
  fun s => let (a, s') := m s in k a s'.

Notation "x <~ m ;; k" := (then_run m (fun x => k))
  (at level 61, m at next level, right associativity).

(** A new list object with the elements [l]. *)
Definition new_list (l : list nat) : Run Address :=
  fun s => (next s,
            mkStore (fun a => if Nat.eqb a (next s) then l else cells s a)
                    (S (next s))).

(** The elements of the list at [a]. *)
Definition read (a : Address) : Run (list nat) := fun s => (cells s a, s).

(** [a += l] and [a.append(x)] (with [l] the single [x]): the list at [a]
    is extended in place. *)
Definition extend (a : Address) (l : list nat) : Run unit :=
  fun s => (tt,
            mkStore (fun a' => if Nat.eqb a' a then cells s a ++ l
                               else cells s a')
                    (next s)).

Fixpoint for_each {A : Type} (l : list A) (body : A -> Run unit) : Run unit :=
  match l with
  | [] => unit_run tt
  | x :: rest => _ <~ body x ;; for_each rest body
  end.

(** A contract whose lists are in the store. *)
Module StoredContract.
Record t := mk {
  name : string;
  inheritance : Address;
  variables : Address;
  functions : Address;
  modifiers : Address
}.
End StoredContract.

Record StoredGraph := mkStoredGraph {
  stored_contract_at : ContractRef -> StoredContract.t;
  stored_variable_at : VariableRef -> StateVariable.t;
  stored_function_at : FunctionRef -> FunctionOrModifier.t
}.

(** The graph as a store holds it. *)
Definition graph_in (sg : StoredGraph) (s : Store) : Graph :=
  mkGraph
    (fun c =>
       let sc := stored_contract_at sg c in
       Contract.mk (StoredContract.name sc)
                   (cells s (StoredContract.inheritance sc))
                   (cells s (StoredContract.variables sc))
                   (cells s (StoredContract.functions sc))
                   (cells s (StoredContract.modifiers sc)))
    (stored_variable_at sg)
    (stored_function_at sg).

(** The lists of the graph are lists of the store. *)
Definition allocated (sg : StoredGraph) (s : Store) : Prop :=
  forall c,
    StoredContract.inheritance (stored_contract_at sg c) < next s
    /\ StoredContract.variables (stored_contract_at sg c) < next s
    /\ StoredContract.functions (stored_contract_at sg c) < next s
    /\ StoredContract.modifiers (stored_contract_at sg c) < next s.

(** The groups behind the address a run of [detect_shadowing] returns. *)
Definition groups_at (s : Store) (ret : Address) : list (list VariableRef) :=
  map (cells s) (cells s ret).

Section Runs.

Variable sg : StoredGraph.

(** Attributes that are not lists are read off the graph of the current
    store. *)
Definition current_graph : Run Graph := fun s => (graph_in sg s, s).

(** The body of the first loop of [detect_shadowing]. *)
Definition run_father (variables_fathers : Address) (father : ContractRef)
  : Run unit :=
  g <~ current_graph ;;
  functions <~ read (StoredContract.functions (stored_contract_at sg father)) ;;
  modifiers <~ read (StoredContract.modifiers (stored_contract_at sg father)) ;;
  if existsb (fun f => FunctionOrModifier.is_implemented (function_at g f))
             (functions ++ modifiers)
  then
    variables <~ read (StoredContract.variables (stored_contract_at sg father)) ;;
    extend variables_fathers (filter (owned_by g father) variables)
  else unit_run tt.

(** The body of the second loop. *)
Definition run_own_variable (ret variables_fathers : Address)
           (var : VariableRef) : Run unit :=
  g <~ current_graph ;;
  fathers_variables <~ read variables_fathers ;;
  match filter (same_name g var) fathers_variables with
  | [] => unit_run tt
  | w :: ws =>
      group <~ new_list (var :: w :: ws) ;;
      extend ret [group]
  end.

Definition run_detect_shadowing (contract : ContractRef) : Run Address :=
  ret <~ new_list [] ;;
  variables_fathers <~ new_list [] ;;
  inheritance <~
    read (StoredContract.inheritance (stored_contract_at sg contract)) ;;
  _ <~ for_each inheritance (run_father variables_fathers) ;;
  g <~ current_graph ;;
  variables <~
    read (StoredContract.variables (stored_contract_at sg contract)) ;;
  _ <~ for_each (filter (owned_by g contract) variables)
                (run_own_variable ret variables_fathers) ;;
  unit_run ret.

Context {json : Type} {detector : AbstractDetector json}.

(** The loop of [_detect].  [results] holds the entries of the reporting
    interface and is carried as a value; an exception ends the run. *)
Fixpoint run_detect_from (results : list json) (contracts : list ContractRef)
  : Run (result (list json)) :=
  match contracts with
  | [] => unit_run (Ok results)
  | c :: rest =>
      shadowing <~ run_detect_shadowing c ;;
      groups <~ (fun s => (groups_at s shadowing, s)) ;;
      g <~ current_graph ;;
      match match groups with
            | [] => Ok results
            | _ :: _ => report_all g results groups
            end with
      | Ok results' => run_detect_from results' rest
      | Raise e => unit_run (Raise e)
      end
  end.

Definition run__detect (contracts : list ContractRef)
  : Run (result (list json)) :=
  run_detect_from [] contracts.

End Runs.

Arguments run__detect sg {json detector} contracts.

(** The chain of [Chain.graph] with its lists in a store: address 0 holds
    the empty list, 1 and 2 the inheritance lists of [B] and [C], 3 to 5
    the variable lists, and 6 the list of modifiers the three contracts
    share. *)
Module ChainStored.
Definition store : Store :=
  mkStore (fun a => nth a [ []; [Chain.A]; [Chain.B; Chain.A];
                            [Chain.flag_A]; [Chain.flag_B]; [Chain.flag_C];
                            [0] ] [])
          7.
Definition graph : StoredGraph :=
  mkStoredGraph
    (fun c => nth c [ StoredContract.mk "A" 0 3 0 6;
                      StoredContract.mk "B" 1 4 0 6;
                      StoredContract.mk "C" 2 5 0 6 ]
                  (StoredContract.mk EmptyString 0 0 0 0))
    (variable_at Chain.graph)
    (function_at Chain.graph).
End ChainStored.

(** ** The loops as list comprehensions *)

Section Loops.

Variable g : Graph.

Lemma fold_add_father (fathers : list ContractRef) (acc : list VariableRef) :
  fold_left (add_father g) fathers acc = acc ++ flat_map (father_part g) fathers.
Proof.
  revert acc; induction fathers as [|f fs IH]; intros acc; simpl.
  - now rewrite app_nil_r.
  - rewrite IH. unfold add_father, father_part.
    destruct (any_implemented g f); simpl; [now rewrite app_assoc | reflexivity].
Qed.

Lemma variables_fathers_flat_map (c : ContractRef) :
  variables_fathers g c
  = flat_map (father_part g) (Contract.inheritance (contract_at g c)).
Proof. unfold variables_fathers. now rewrite fold_add_father. Qed.

Lemma fold_add_shadow (vf : list VariableRef) (vars : list VariableRef)
      (acc : list (list VariableRef)) :
  fold_left (add_shadow g vf) vars acc
  = acc ++ map (fun var => var :: filter (same_name g var) vf)
               (filter (fun var => match filter (same_name g var) vf with
                                   | [] => false | _ :: _ => true end) vars).
Proof.
  revert acc; induction vars as [|v vs IH]; intros acc; simpl.
  - now rewrite app_nil_r.
  - rewrite IH. unfold add_shadow.
    destruct (filter (same_name g v) vf) eqn:E; simpl.
    + reflexivity.
    + rewrite E, <- app_assoc. reflexivity.
Qed.

Lemma detect_shadowing_map (c : ContractRef) :
  detect_shadowing g c
  = map (fun var => var :: shadow_of g c var)
        (filter (is_shadowing g c) (own_variables g c)).
Proof. unfold detect_shadowing. now rewrite fold_add_shadow. Qed.

Lemma owned_by_spec (c : ContractRef) (v : VariableRef) :
  owned_by g c v = true <-> StateVariable.contract (variable_at g v) = Some c.
Proof.
  unfold owned_by. destruct (StateVariable.contract (variable_at g v)) as [o|].
  - rewrite Nat.eqb_eq. split; congruence.
  - split; discriminate.
Qed.

Lemma same_name_spec (var v : VariableRef) :
  same_name g var v = true
  <-> StateVariable.name (variable_at g v) = StateVariable.name (variable_at g var).
Proof. unfold same_name. apply String.eqb_eq. Qed.

Lemma in_father_part (father : ContractRef) (w : VariableRef) :
  In w (father_part g father)
  <-> any_implemented g father = true
      /\ In w (Contract.variables (contract_at g father))
      /\ StateVariable.contract (variable_at g w) = Some father.
Proof.
  unfold father_part. destruct (any_implemented g father).
  - rewrite filter_In, owned_by_spec. tauto.
  - simpl. split; [tauto | intros [H _]; discriminate].
Qed.

Lemma in_variables_fathers (c : ContractRef) (w : VariableRef) :
  In w (variables_fathers g c)
  <-> exists father,
        In father (Contract.inheritance (contract_at g c))
        /\ any_implemented g father = true
        /\ In w (Contract.variables (contract_at g father))
        /\ StateVariable.contract (variable_at g w) = Some father.
Proof.
  rewrite variables_fathers_flat_map, in_flat_map.
  split; intros [f [Hf H]]; exists f; split; auto; now apply in_father_part.
Qed.

Lemma in_shadow_of (c : ContractRef) (var w : VariableRef) :
  In w (shadow_of g c var)
  <-> In w (variables_fathers g c)
      /\ StateVariable.name (variable_at g w)
         = StateVariable.name (variable_at g var).
Proof. unfold shadow_of. now rewrite filter_In, same_name_spec. Qed.

Lemma is_shadowing_spec (c : ContractRef) (var : VariableRef) :
  is_shadowing g c var = true <-> shadow_of g c var <> [].
Proof.
  unfold is_shadowing. destruct (shadow_of g c var); split; congruence.
Qed.

Lemma in_own_variables (c : ContractRef) (v : VariableRef) :
  In v (own_variables g c)
  <-> In v (Contract.variables (contract_at g c))
      /\ StateVariable.contract (variable_at g v) = Some c.
Proof. unfold own_variables. now rewrite filter_In, owned_by_spec. Qed.

Lemma in_detect_shadowing (c : ContractRef) (grp : list VariableRef) :
  In grp (detect_shadowing g c)
  <-> exists var,
        grp = var :: shadow_of g c var
        /\ In var (own_variables g c)
        /\ shadow_of g c var <> [].
Proof.
  rewrite detect_shadowing_map, in_map_iff.
  split.
  - intros [var [E H]]. apply filter_In in H. destruct H as [H1 H2].
    exists var. rewrite <- is_shadowing_spec. auto.
  - intros [var [E [H1 H2]]]. exists var. split; [auto|].
    apply filter_In. now rewrite is_shadowing_spec.
Qed.

End Loops.

(** ** [_detect] never raises *)

Section Diagnostics.

Variable g : Graph.
Context {json : Type} {detector : AbstractDetector json}.

Lemma string_app_assoc (a b c : string) :
  ((a ++ b) ++ c = a ++ (b ++ c))%string.
Proof. induction a as [|x a IH]; simpl; [reflexivity | now rewrite IH]. Qed.

Lemma string_app_nil_r (a : string) : (a ++ "" = a)%string.
Proof. induction a as [|x a IH]; simpl; [reflexivity | now rewrite IH]. Qed.

Lemma format_variable_ok (v : VariableRef) :
  has_owner g v -> format_variable g v = Ok (variable_text g v).
Proof.
  unfold has_owner, format_variable, contract_name, variable_text, owner_name.
  destruct (StateVariable.contract (variable_at g v)); [reflexivity | congruence].
Qed.

Lemma append_shadowed_ok (variables : list VariableRef) (info : string) :
  Forall (has_owner g) variables ->
  append_shadowed g info variables = Ok (info ++ shadowed_text g variables)%string.
Proof.
  revert info; induction variables as [|v vs IH]; intros info H; simpl.
  - now rewrite string_app_nil_r.
  - inversion H as [|? ? Hv Hvs]; subst.
    rewrite (format_variable_ok v Hv); simpl.
    rewrite (IH _ Hvs). f_equal.
    rewrite string_app_assoc. reflexivity.
Qed.

Lemma report_ok (all_variables : list VariableRef) :
  all_variables <> [] -> Forall (has_owner g) all_variables ->
  report g all_variables = Ok (diagnostic g all_variables).
Proof.
  destruct all_variables as [|shadow variables]; [congruence|].
  intros _ H. inversion H as [|? ? Hs Hv]; subst.
  unfold report; simpl.
  rewrite (format_variable_ok shadow Hs); simpl.
  rewrite (append_shadowed_ok variables _ Hv); simpl.
  reflexivity.
Qed.

Lemma report_all_ok (shadowing : list (list VariableRef)) (results : list json) :
  Forall (fun grp => grp <> [] /\ Forall (has_owner g) grp) shadowing ->
  report_all g results shadowing = Ok (results ++ map (diagnostic g) shadowing).
Proof.
  revert results; induction shadowing as [|grp rest IH]; intros results H; simpl.
  - now rewrite app_nil_r.
  - inversion H as [|? ? [Hne Hown] Hrest]; subst.
    rewrite (report_ok grp Hne Hown); simpl.
    rewrite (IH _ Hrest), <- app_assoc. reflexivity.
Qed.

(** Every variable of a group of [detect_shadowing] has an owner: the
    first passed [v.contract == contract], the others
    [v.contract == father]. *)
Lemma detect_shadowing_reportable (c : ContractRef) :
  Forall (fun grp => grp <> [] /\ Forall (has_owner g) grp) (detect_shadowing g c).
Proof.
  apply Forall_forall. intros grp H.
  apply in_detect_shadowing in H. destruct H as [var [E [Hown _]]].
  subst grp. split; [discriminate|].
  constructor.
  - apply in_own_variables in Hown. unfold has_owner. destruct Hown; congruence.
  - apply Forall_forall. intros w Hw. apply in_shadow_of in Hw.
    destruct Hw as [Hw _]. apply in_variables_fathers in Hw.
    destruct Hw as [f [_ [_ [_ Hf]]]]. unfold has_owner. congruence.
Qed.

Lemma detect_from_ok (contracts : list ContractRef) (results : list json) :
  detect_from g results contracts = Ok (results ++ batch_diagnostics g contracts).
Proof.
  revert results; induction contracts as [|c cs IH]; intros results; simpl.
  - now rewrite app_nil_r.
  - pose proof (detect_shadowing_reportable c) as Hc.
    unfold contract_diagnostics.
    destruct (detect_shadowing g c) as [|grp rest] eqn:E.
    + simpl. apply IH.
    + rewrite (report_all_ok _ _ Hc). simpl bind.
      rewrite IH, <- app_assoc. reflexivity.
Qed.

Lemma _detect_ok (contracts : list ContractRef) :
  _detect g contracts = Ok (batch_diagnostics g contracts).
Proof. unfold _detect. now rewrite detect_from_ok. Qed.

End Diagnostics.

(** ** Facts about lists used below *)

Section ListFacts.

Context {A B : Type}.

Lemma filter_flat_map (p : B -> bool) (f : A -> list B) (l : list A) :
  filter p (flat_map f l) = flat_map (fun x => filter p (f x)) l.
Proof.
  induction l as [|x l IH]; simpl; [reflexivity|].
  now rewrite filter_app, IH.
Qed.

Lemma filter_filter_andb (p q : B -> bool) (l : list B) :
  filter p (filter q l) = filter (fun x => q x && p x) l.
Proof.
  induction l as [|x l IH]; simpl; [reflexivity|].
  destruct (q x); simpl; [destruct (p x)|]; now rewrite IH.
Qed.


Lemma flat_map_nil (f : A -> list B) (l : list A) :
  (forall x, In x l -> f x = []) -> flat_map f l = [].
Proof.
  induction l as [|x l IH]; intros H; simpl; [reflexivity|].
  rewrite H by now left. apply IH. intros; apply H; now right.
Qed.

End ListFacts.

(** ** Liveness and the tail of a group *)

Section Shadowed.

Variable g : Graph.

Lemma any_implemented_spec (c : ContractRef) :
  any_implemented g c = true <-> live g c.
Proof. unfold any_implemented, live. apply existsb_exists. Qed.

Lemma shadow_of_flat_map (c : ContractRef) (var : VariableRef) :
  shadow_of g c var
  = flat_map (shadowed_in g var) (Contract.inheritance (contract_at g c)).
Proof.
  unfold shadow_of. rewrite variables_fathers_flat_map, filter_flat_map.
  apply flat_map_ext. intros f. unfold father_part, shadowed_in.
  destruct (any_implemented g f); [apply filter_filter_andb | reflexivity].
Qed.

(** A shadowed variable comes from a live ancestor that declares it. *)
Lemma in_shadow_of_father (c : ContractRef) (var w : VariableRef) :
  In w (shadow_of g c var) ->
  exists father,
    In father (Contract.inheritance (contract_at g c))
    /\ live g father
    /\ In w (Contract.variables (contract_at g father))
    /\ StateVariable.contract (variable_at g w) = Some father.
Proof.
  intros H. apply in_shadow_of in H. destruct H as [H _].
  apply in_variables_fathers in H. destruct H as [f [H1 [H2 H3]]].
  exists f. rewrite <- any_implemented_spec. auto.
Qed.

End Shadowed.

(** ** The groups of [detect_shadowing] *)

Section Groups.

Variable g : Graph.

(** A group is headed by an own variable of the contract and carries that
    variable's shadowed list. *)
Lemma group_inv (c : ContractRef) (v : VariableRef) (shadowed : list VariableRef) :
  In (v :: shadowed) (detect_shadowing g c) ->
  shadowed = shadow_of g c v /\ In v (own_variables g c) /\ shadowed <> [].
Proof.
  intros H. apply in_detect_shadowing in H.
  destruct H as [var [E [H1 H2]]]. injection E as -> ->. auto.
Qed.

Lemma group_shape (c : ContractRef) (grp : list VariableRef) :
  In grp (detect_shadowing g c) ->
  exists v, grp = v :: shadow_of g c v
            /\ In v (own_variables g c) /\ shadow_of g c v <> [].
Proof. intros H. now apply in_detect_shadowing in H. Qed.

(** A same-named variable declared by a live ancestor puts the own variable
    [v] at the head of a group that lists it. *)
Lemma group_emitted (c f : ContractRef) (v w : VariableRef) :
  In f (Contract.inheritance (contract_at g c)) ->
  live g f ->
  In v (Contract.variables (contract_at g c)) ->
  StateVariable.contract (variable_at g v) = Some c ->
  In w (Contract.variables (contract_at g f)) ->
  StateVariable.contract (variable_at g w) = Some f ->
  StateVariable.name (variable_at g w) = StateVariable.name (variable_at g v) ->
  In (v :: shadow_of g c v) (detect_shadowing g c) /\ In w (shadow_of g c v).
Proof.
  intros Hf Hlive Hv Hvo Hw Hwo Hname.
  assert (Hin : In w (shadow_of g c v)).
  { apply in_shadow_of. split; [|assumption].
    apply in_variables_fathers. exists f.
    rewrite any_implemented_spec. auto. }
  split; [|assumption].
  apply in_detect_shadowing. exists v. split; [reflexivity|].
  split; [now apply in_own_variables|].
  intros E. rewrite E in Hin. contradiction.
Qed.

End Groups.

(** * The properties of the detector *)

(** C1.  When an ancestor [F] of [C] is live (one of its functions or
    modifiers is implemented) and declares a variable [w] with the name of a
    variable [v] that [C] declares, [detect_shadowing C] returns a group
    whose first element is [v] and whose other elements include [w].  On the
    contracts of the documentation the result is the single group
    [[DerivedContract.owner; BaseContract.owner]]. *)
Theorem C1_shadow_group_emitted :
  (forall (g : Graph) (C F : ContractRef) (v w : VariableRef),
      In F (Contract.inheritance (contract_at g C)) ->
      live g F ->
      In v (Contract.variables (contract_at g C)) ->
      StateVariable.contract (variable_at g v) = Some C ->
      In w (Contract.variables (contract_at g F)) ->
      StateVariable.contract (variable_at g w) = Some F ->
      StateVariable.name (variable_at g v) = StateVariable.name (variable_at g w) ->
      exists shadowed,
        In (v :: shadowed) (detect_shadowing g C) /\ In w shadowed)
  /\ detect_shadowing Wiki.graph Wiki.DerivedContract
     = [[Wiki.derived_owner; Wiki.base_owner]].
Proof.
  split; [|reflexivity].
  intros g C F v w HF Hlive Hv Hvo Hw Hwo Hname.
  exists (shadow_of g C v).
  apply group_emitted with (f := F); auto.
Qed.

Lemma C1_shadow_group_emitted_witness :
  exists shadowed,
    In (Wiki.derived_owner :: shadowed)
       (detect_shadowing Wiki.graph Wiki.DerivedContract)
    /\ In Wiki.base_owner shadowed.
Proof.
  apply (proj1 C1_shadow_group_emitted Wiki.graph Wiki.DerivedContract
               Wiki.BaseContract Wiki.derived_owner Wiki.base_owner).
  - simpl. now left.
  - exists Wiki.isOwner. split; [simpl; now left | reflexivity].
  - simpl. now left.
  - reflexivity.
  - simpl. now left.
  - reflexivity.
  - reflexivity.
Defined.

(** C2.  When no function and no modifier of an ancestor [F] of [C] is
    implemented, a variable declared by [F] is never among the shadowed
    elements of a group of [detect_shadowing C], whatever its name, and
    (for [F] other than [C] itself) is in no group at all; a contract whose
    ancestors are all dead gets no group. *)
Theorem C2_dead_ancestor_excluded :
  (forall (g : Graph) (C F : ContractRef) (grp : list VariableRef)
          (w : VariableRef),
      In F (Contract.inheritance (contract_at g C)) ->
      ~ live g F ->
      StateVariable.contract (variable_at g w) = Some F ->
      In grp (detect_shadowing g C) ->
      ~ In w (tl grp) /\ (F <> C -> ~ In w grp))
  /\ (forall (g : Graph) (C : ContractRef),
         (forall F, In F (Contract.inheritance (contract_at g C)) -> ~ live g F) ->
         detect_shadowing g C = []).
Proof.
  split.
  - intros g C F grp w HF Hdead Hwo Hgrp.
    apply group_shape in Hgrp. destruct Hgrp as [v [-> [Hv _]]]. simpl.
    assert (Htail : ~ In w (shadow_of g C v)).
    { intros Hin. apply in_shadow_of_father in Hin.
      destruct Hin as [f [_ [Hlive [_ Hf]]]].
      rewrite Hwo in Hf. injection Hf as <-. contradiction. }
    split; [assumption|].
    intros Hneq [E | Hin]; [|contradiction].
    subst w. apply in_own_variables in Hv. destruct Hv as [_ Hv].
    rewrite Hwo in Hv. injection Hv as E. contradiction.
  - intros g C Hdead.
    destruct (detect_shadowing g C) as [|grp rest] eqn:E; [reflexivity|].
    assert (Hgrp : In grp (detect_shadowing g C)) by (rewrite E; now left).
    apply group_shape in Hgrp. destruct Hgrp as [v [_ [_ Hne]]].
    destruct (shadow_of g C v) as [|w ws] eqn:Ew; [congruence|].
    assert (Hw : In w (shadow_of g C v)) by (rewrite Ew; now left).
    apply in_shadow_of_father in Hw. destruct Hw as [f [Hf [Hlive _]]].
    exfalso. exact (Hdead f Hf Hlive).
Qed.

Lemma C2_dead_ancestor_excluded_witness :
  (forall grp, In grp (detect_shadowing Dead.graph Dead.DerivedContract) ->
               ~ In Dead.base_owner (tl grp)
               /\ (Dead.BaseContract <> Dead.DerivedContract ->
                   ~ In Dead.base_owner grp))
  /\ detect_shadowing Dead.graph Dead.DerivedContract = [].
Proof.
  assert (Hdead : ~ live Dead.graph Dead.BaseContract).
  { intros [f [Hf Himpl]]. simpl in Hf. destruct Hf as [<- | []].
    discriminate Himpl. }
  split.
  - intros grp.
    apply (proj1 C2_dead_ancestor_excluded Dead.graph Dead.DerivedContract
                 Dead.BaseContract grp Dead.base_owner).
    + simpl. now left.
    + exact Hdead.
    + reflexivity.
  - apply (proj2 C2_dead_ancestor_excluded Dead.graph Dead.DerivedContract).
    intros F HF. simpl in HF. destruct HF as [<- | []]. exact Hdead.
Defined.

Section Distinct.

Context {A K : Type}.


End Distinct.

Section Once.

Variable g : Graph.




End Once.




(** C8.  When [C] is not in its own inheritance sequence, a variable
    declared by [C] is never among the shadowed elements (the elements
    after the first) of a group of [detect_shadowing C]. *)
Theorem C8_no_self_shadowing (g : Graph) (C : ContractRef)
        (grp : list VariableRef) (w : VariableRef) :
  ~ In C (Contract.inheritance (contract_at g C)) ->
  In grp (detect_shadowing g C) ->
  StateVariable.contract (variable_at g w) = Some C ->
  ~ In w (tl grp).
Proof.
  intros Hself Hgrp Hwo Hin.
  apply group_shape in Hgrp. destruct Hgrp as [v [-> _]]. simpl in Hin.
  apply in_shadow_of_father in Hin. destruct Hin as [f [Hf [_ [_ Hfo]]]].
  rewrite Hwo in Hfo. injection Hfo as <-. contradiction.
Qed.

Lemma C8_no_self_shadowing_witness :
  ~ In Chain.flag_C (tl [Chain.flag_C; Chain.flag_B; Chain.flag_A]).
Proof.
  apply (C8_no_self_shadowing Chain.graph Chain.C
           [Chain.flag_C; Chain.flag_B; Chain.flag_A] Chain.flag_C).
  - simpl. intros [H | [H | []]]; discriminate H.
  - simpl. now left.
  - reflexivity.
Defined.

Section Keys.

Context {A B K : Type}.




End Keys.

Section WellFormedGroups.

Variable g : Graph.




End WellFormedGroups.




Section Counting.

Variable g : Graph.

Lemma heads_of_groups (c : ContractRef) :
  map (@hd_error VariableRef) (detect_shadowing g c)
  = map Some (filter (is_shadowing g c) (own_variables g c)).
Proof. rewrite detect_shadowing_map, map_map. reflexivity. Qed.

Lemma groups_headed_by (v : VariableRef) (h : VariableRef -> list VariableRef)
      (q : VariableRef -> bool) (l : list VariableRef) :
  length (filter (headed_by v) (map (fun x => x :: h x) (filter q l)))
  <= count_occ Nat.eq_dec l v.
Proof.
  induction l as [|x l IH]; simpl; [lia|].
  destruct (q x); simpl.
  - destruct (Nat.eq_dec x v) as [E | E].
    + apply Nat.eqb_eq in E. rewrite E. simpl. lia.
    + apply Nat.eqb_neq in E. rewrite E. exact IH.
  - destruct (Nat.eq_dec x v); lia.
Qed.

End Counting.

(** C10, as the code has it.  [detect_shadowing C] returns one group for
    each entry of [C.variables] whose variable is declared by [C] and has
    the name of a variable declared by a live contract of [C.inheritance],
    in the order of [C.variables], the entry's variable first in its
    group; other entries give no group.  So a variable heads no more
    groups than it has entries in [C.variables], at most one when the list
    holds it once. *)
Theorem C10_one_group_per_own_entry (g : Graph) (C : ContractRef) :
  exists shadowing : VariableRef -> bool,
    (forall v,
        shadowing v = true
        <-> StateVariable.contract (variable_at g v) = Some C
            /\ exists F w,
                 In F (Contract.inheritance (contract_at g C))
                 /\ live g F
                 /\ In w (Contract.variables (contract_at g F))
                 /\ StateVariable.contract (variable_at g w) = Some F
                 /\ StateVariable.name (variable_at g w)
                    = StateVariable.name (variable_at g v))
    /\ map (@hd_error VariableRef) (detect_shadowing g C)
       = map Some (filter shadowing (Contract.variables (contract_at g C)))
    /\ (forall v,
           length (filter (headed_by v) (detect_shadowing g C))
           <= count_occ Nat.eq_dec (Contract.variables (contract_at g C)) v)
    /\ (NoDup (Contract.variables (contract_at g C)) ->
        forall v, length (filter (headed_by v) (detect_shadowing g C)) <= 1).
Proof.
  assert (Hcount : forall v,
             length (filter (headed_by v) (detect_shadowing g C))
             <= count_occ Nat.eq_dec (Contract.variables (contract_at g C)) v).
  { intros v. rewrite detect_shadowing_map. unfold own_variables.
    rewrite filter_filter_andb. apply groups_headed_by. }
  exists (fun v => owned_by g C v && is_shadowing g C v).
  split; [|split; [|split]].
  - intros v. rewrite andb_true_iff, owned_by_spec, is_shadowing_spec.
    split; intros [Hvo Hshadow]; (split; [assumption|]).
    + destruct (shadow_of g C v) as [|w ws] eqn:E; [congruence|].
      assert (Hw : In w (shadow_of g C v)) by (rewrite E; now left).
      destruct (in_shadow_of_father g C v w Hw) as [F [HF [Hlive [HwF Hwo]]]].
      apply in_shadow_of in Hw. destruct Hw as [_ Hname].
      exists F, w. auto.
    + destruct Hshadow as [F [w [HF [Hlive [HwF [Hwo Hname]]]]]].
      assert (Hw : In w (shadow_of g C v)).
      { apply in_shadow_of. split; [|assumption].
        apply in_variables_fathers. exists F.
        rewrite any_implemented_spec. auto. }
      intros E. rewrite E in Hw. contradiction.
  - rewrite heads_of_groups. unfold own_variables.
    now rewrite filter_filter_andb.
  - exact Hcount.
  - intros Hnd v. rewrite (NoDup_count_occ Nat.eq_dec) in Hnd.
    specialize (Hnd v). specialize (Hcount v). lia.
Qed.

(** C10, as stated, fails: a variable listed twice in [C.variables] gets two
    groups. *)
Lemma C10_two_groups_counterexample :
  Contract.variables (contract_at OwnListedTwice.graph OwnListedTwice.C)
  = [OwnListedTwice.x_C; OwnListedTwice.x_C]
  /\ detect_shadowing OwnListedTwice.graph OwnListedTwice.C
     = [[OwnListedTwice.x_C; OwnListedTwice.x_A];
        [OwnListedTwice.x_C; OwnListedTwice.x_A]]
  /\ length (filter (headed_by OwnListedTwice.x_C)
                    (detect_shadowing OwnListedTwice.graph OwnListedTwice.C))
     = 2.
Proof. repeat split. Qed.

(** C4.  A group of [detect_shadowing C] starts with the shadowing
    variable, declared by [C]; the shadowed variables follow ancestor by
    ancestor in the order of [C.inheritance], each live ancestor giving the
    same-named variables it declares.  [_detect] returns the entries of the
    groups contract by contract in the order of [self.contracts], the
    entries of one contract together and in the order of its groups. *)
Theorem C4_ordering :
  (forall (g : Graph) (C : ContractRef) (grp : list VariableRef),
      In grp (detect_shadowing g C) ->
      exists v,
        grp = v :: flat_map (shadowed_in g v)
                            (Contract.inheritance (contract_at g C))
        /\ In v (Contract.variables (contract_at g C))
        /\ StateVariable.contract (variable_at g v) = Some C)
  /\ (forall (g : Graph) (json : Type) (detector : AbstractDetector json)
             (contracts : list ContractRef),
         _detect g contracts
         = Ok (flat_map (fun c => map (diagnostic g) (detect_shadowing g c))
                        contracts)).
Proof.
  split.
  - intros g C grp Hgrp. apply group_shape in Hgrp.
    destruct Hgrp as [v [-> [Hv _]]]. exists v.
    rewrite shadow_of_flat_map. apply in_own_variables in Hv. tauto.
  - intros g json detector contracts. apply _detect_ok.
Qed.

Lemma C4_ordering_witness :
  (exists v,
      [Chain.flag_C; Chain.flag_B; Chain.flag_A]
      = v :: flat_map (shadowed_in Chain.graph v)
                      (Contract.inheritance (contract_at Chain.graph Chain.C))
      /\ In v (Contract.variables (contract_at Chain.graph Chain.C))
      /\ StateVariable.contract (variable_at Chain.graph v) = Some Chain.C)
  /\ Contract.inheritance (contract_at Chain.graph Chain.C) = [Chain.B; Chain.A]
  /\ _detect Chain.graph [Chain.A; Chain.B; Chain.C]
     = Ok [diagnostic Chain.graph [Chain.flag_B; Chain.flag_A];
           diagnostic Chain.graph [Chain.flag_C; Chain.flag_B; Chain.flag_A]].
Proof.
  split; [|split; [reflexivity|]].
  - apply (proj1 C4_ordering Chain.graph Chain.C
                 [Chain.flag_C; Chain.flag_B; Chain.flag_A]).
    simpl. now left.
  - exact (proj2 C4_ordering Chain.graph _ plain_entries
                 [Chain.A; Chain.B; Chain.C]).
Defined.

(** C5.  Let [v] be a variable declared by [C] and [w] a variable declared
    by a live ancestor of [C].  Then [w] is in the shadowed list of a group
    of [v] exactly when the two names are the same string; nothing else
    about the variables is read.  [Owner] in an ancestor and [owner] in the
    descendant form no group. *)
Theorem C5_exact_name_match :
  (forall (g : Graph) (C F : ContractRef) (v w : VariableRef),
      In v (Contract.variables (contract_at g C)) ->
      StateVariable.contract (variable_at g v) = Some C ->
      In F (Contract.inheritance (contract_at g C)) ->
      live g F ->
      In w (Contract.variables (contract_at g F)) ->
      StateVariable.contract (variable_at g w) = Some F ->
      ((exists shadowed,
           In (v :: shadowed) (detect_shadowing g C) /\ In w shadowed)
       <-> StateVariable.name (variable_at g w)
           = StateVariable.name (variable_at g v)))
  /\ detect_shadowing Case.graph Case.DerivedContract = [].
Proof.
  split; [|reflexivity].
  intros g C F v w Hv Hvo HF Hlive Hw Hwo. split.
  - intros [shadowed [Hgrp Hin]].
    apply group_inv in Hgrp. destruct Hgrp as [-> _].
    apply in_shadow_of in Hin. tauto.
  - intros Hname. exists (shadow_of g C v).
    apply group_emitted with (f := F); auto.
Qed.

Lemma C5_exact_name_match_witness :
  ((exists shadowed,
       In (Case.derived_owner :: shadowed)
          (detect_shadowing Case.graph Case.DerivedContract)
       /\ In Case.base_Owner shadowed)
   <-> StateVariable.name (variable_at Case.graph Case.base_Owner)
       = StateVariable.name (variable_at Case.graph Case.derived_owner))
  /\ StateVariable.name (variable_at Case.graph Case.base_Owner)
     <> StateVariable.name (variable_at Case.graph Case.derived_owner).
Proof.
  split; [|discriminate].
  apply (proj1 C5_exact_name_match Case.graph Case.DerivedContract
               Case.BaseContract Case.derived_owner Case.base_Owner).
  - simpl. now left.
  - reflexivity.
  - simpl. now left.
  - exists 0. split; [simpl; now left | reflexivity].
  - simpl. now left.
  - reflexivity.
Defined.

(** ** The result depends on the graph only through its objects *)

Section Pointwise.

Context {A B : Type}.

Lemma existsb_pointwise (p q : A -> bool) (l : list A) :
  (forall x, p x = q x) -> existsb p l = existsb q l.
Proof.
  intros H. induction l as [|x l IH]; simpl; [reflexivity|].
  now rewrite H, IH.
Qed.

Lemma fold_left_pointwise (f f' : B -> A -> B) (l : list A) (b : B) :
  (forall y x, f y x = f' y x) -> fold_left f l b = fold_left f' l b.
Proof.
  intros H. revert b. induction l as [|x l IH]; intros b; simpl; [reflexivity|].
  now rewrite H, IH.
Qed.

End Pointwise.

Section SameGraph.

Variables g1 g2 : Graph.
Hypothesis Hsame : same_graph g1 g2.

Lemma same_owned_by (c : ContractRef) (v : VariableRef) :
  owned_by g1 c v = owned_by g2 c v.
Proof. destruct Hsame as [_ [Hv _]]. unfold owned_by. now rewrite Hv. Qed.

Lemma same_same_name (var v : VariableRef) :
  same_name g1 var v = same_name g2 var v.
Proof. destruct Hsame as [_ [Hv _]]. unfold same_name. now rewrite !Hv. Qed.

Lemma same_any_implemented (c : ContractRef) :
  any_implemented g1 c = any_implemented g2 c.
Proof.
  destruct Hsame as [Hc [_ Hf]]. unfold any_implemented. rewrite Hc.
  apply existsb_pointwise. intros f. now rewrite Hf.
Qed.

Lemma same_variables_fathers (c : ContractRef) :
  variables_fathers g1 c = variables_fathers g2 c.
Proof.
  unfold variables_fathers. destruct Hsame as [Hc _]. rewrite Hc.
  apply fold_left_pointwise. intros acc f. unfold add_father.
  rewrite same_any_implemented, Hc.
  destruct (any_implemented g2 f); [|reflexivity].
  f_equal. apply filter_ext. intros v. apply same_owned_by.
Qed.

Lemma same_detect_shadowing (c : ContractRef) :
  detect_shadowing g1 c = detect_shadowing g2 c.
Proof.
  unfold detect_shadowing. rewrite same_variables_fathers.
  destruct Hsame as [Hc _]. rewrite Hc.
  rewrite (filter_ext _ _ (same_owned_by c)).
  apply fold_left_pointwise. intros ret var. unfold add_shadow.
  now rewrite (filter_ext _ _ (same_same_name var)).
Qed.

Context {json : Type} {detector : AbstractDetector json}.

Lemma same_variable_text (v : VariableRef) :
  variable_text g1 v = variable_text g2 v.
Proof.
  destruct Hsame as [Hc [Hv _]]. unfold variable_text, owner_name.
  rewrite Hv. destruct (StateVariable.contract (variable_at g2 v)); [|reflexivity].
  now rewrite Hc.
Qed.

Lemma same_shadowed_text (variables : list VariableRef) :
  shadowed_text g1 variables = shadowed_text g2 variables.
Proof.
  induction variables as [|v vs IH]; simpl; [reflexivity|].
  now rewrite same_variable_text, IH.
Qed.

Lemma same_diagnostic (all_variables : list VariableRef) :
  diagnostic g1 all_variables = diagnostic g2 all_variables.
Proof.
  unfold diagnostic, info_text. destruct all_variables as [|v vs]; [reflexivity|].
  now rewrite same_variable_text, same_shadowed_text.
Qed.

Lemma same_batch_diagnostics (contracts : list ContractRef) :
  batch_diagnostics g1 contracts = batch_diagnostics g2 contracts.
Proof.
  unfold batch_diagnostics. apply flat_map_ext. intros c.
  unfold contract_diagnostics. rewrite same_detect_shadowing.
  apply map_ext. exact same_diagnostic.
Qed.

End SameGraph.

(** ** Runs and the store *)

Section StoreFacts.

Lemma new_list_spec (l : list nat) (s s' : Store) (a : Address) :
  new_list l s = (a, s') ->
  a = next s
  /\ next s' = S (next s)
  /\ cells s' a = l
  /\ forall x, x <> a -> cells s' x = cells s x.
Proof.
  unfold new_list. intros H. injection H as <- <-. simpl.
  rewrite Nat.eqb_refl. repeat split.
  intros x Hx. apply Nat.eqb_neq in Hx. now rewrite Hx.
Qed.

Lemma extend_spec (a : Address) (l : list nat) (s s' : Store) (u : unit) :
  extend a l s = (u, s') ->
  next s' = next s
  /\ cells s' a = cells s a ++ l
  /\ forall x, x <> a -> cells s' x = cells s x.
Proof.
  unfold extend. intros H. injection H as _ <-. simpl.
  rewrite Nat.eqb_refl. repeat split.
  intros x Hx. apply Nat.eqb_neq in Hx. now rewrite Hx.
Qed.

End StoreFacts.

Section RunFacts.

Variable sg : StoredGraph.
Variable s0 : Store.
Hypothesis Hallocated : allocated sg s0.

(** A store that agrees with [s0] on the lists of [s0] holds the same
    graph. *)
Lemma graph_in_stable (s : Store) :
  (forall a, a < next s0 -> cells s a = cells s0 a) ->
  same_graph (graph_in sg s) (graph_in sg s0).
Proof.
  intros Hcells. split; [|split; intros; reflexivity].
  intros c. unfold graph_in. simpl.
  destruct (Hallocated c) as [H1 [H2 [H3 H4]]].
  now rewrite !Hcells by assumption.
Qed.

Lemma run_father_spec (variables_fathers : Address) (father : ContractRef)
      (s s' : Store) (u : unit) :
  (forall a, a < next s0 -> cells s a = cells s0 a) ->
  run_father sg variables_fathers father s = (u, s') ->
  next s' = next s
  /\ cells s' variables_fathers
     = cells s variables_fathers ++ father_part (graph_in sg s0) father
  /\ forall x, x <> variables_fathers -> cells s' x = cells s x.
Proof.
  intros Hcells. destruct (Hallocated father) as [_ [H2 [H3 H4]]].
  unfold run_father, then_run, current_graph, read, father_part, any_implemented.
  simpl. rewrite (Hcells _ H3), (Hcells _ H4).
  destruct (existsb _ _).
  - cbv beta. rewrite (Hcells _ H2). apply extend_spec.
  - unfold unit_run. intros H. injection H as _ <-.
    rewrite app_nil_r. auto.
Qed.

Lemma run_fathers_spec (variables_fathers : Address)
      (fathers : list ContractRef) (s s' : Store) (u : unit) :
  next s0 <= variables_fathers ->
  (forall a, a < next s0 -> cells s a = cells s0 a) ->
  for_each fathers (run_father sg variables_fathers) s = (u, s') ->
  next s' = next s
  /\ cells s' variables_fathers
     = cells s variables_fathers
         ++ flat_map (father_part (graph_in sg s0)) fathers
  /\ forall x, x <> variables_fathers -> cells s' x = cells s x.
Proof.
  intros Hvf. revert s.
  induction fathers as [|f fs IH]; intros s Hcells Hrun; simpl in Hrun.
  - unfold unit_run in Hrun. injection Hrun as _ <-. simpl.
    rewrite app_nil_r. auto.
  - unfold then_run in Hrun.
    destruct (run_father sg variables_fathers f s) as [u1 s1] eqn:E1.
    destruct (run_father_spec _ _ _ _ _ Hcells E1) as [Hn1 [Hv1 Ho1]].
    assert (Hcells1 : forall a, a < next s0 -> cells s1 a = cells s0 a).
    { intros a Ha. rewrite Ho1 by lia. now apply Hcells. }
    destruct (IH s1 Hcells1 Hrun) as [Hn [Hv Ho]].
    split; [congruence|]. split.
    + simpl. rewrite Hv, Hv1, app_assoc. reflexivity.
    + intros x Hx. rewrite Ho, Ho1 by assumption. reflexivity.
Qed.

End RunFacts.

Section RunGroups.

Variable sg : StoredGraph.

Lemma run_own_variable_spec (s0 : Store) (ret variables_fathers : Address)
      (var : VariableRef) (s s' : Store) (u : unit) :
  ret < next s ->
  run_own_variable sg ret variables_fathers var s = (u, s') ->
  match filter (same_name (graph_in sg s0) var) (cells s variables_fathers) with
  | [] => s' = s
  | w :: ws =>
      next s' = S (next s)
      /\ cells s' ret = cells s ret ++ [next s]
      /\ cells s' (next s) = var :: w :: ws
      /\ forall x, x <> ret -> x <> next s -> cells s' x = cells s x
  end.
Proof.
  intros Hret.
  unfold run_own_variable, then_run, current_graph, read. cbv beta iota.
  change (same_name (graph_in sg s) var)
    with (same_name (graph_in sg s0) var).
  destruct (filter (same_name (graph_in sg s0) var)
                   (cells s variables_fathers)) as [|w ws].
  - unfold unit_run. intros H. now injection H as _ <-.
  - destruct (new_list (var :: w :: ws) s) as [group s1] eqn:E1.
    intros E2.
    destruct (new_list_spec _ _ _ _ E1) as [-> [Hn1 [Hg1 Ho1]]].
    destruct (extend_spec _ _ _ _ _ E2) as [Hn2 [Hr2 Ho2]].
    split; [congruence|]. split; [|split].
    + rewrite Hr2, Ho1 by lia. reflexivity.
    + rewrite Ho2 by lia. exact Hg1.
    + intros x Hx Hx'. rewrite Ho2, Ho1 by assumption. reflexivity.
Qed.

Lemma run_own_variables_spec (s0 : Store) (ret variables_fathers : Address)
      (vars : list VariableRef) (s s' : Store) (u : unit) :
  ret < next s ->
  variables_fathers < next s ->
  ret <> variables_fathers ->
  for_each vars (run_own_variable sg ret variables_fathers) s = (u, s') ->
  next s <= next s'
  /\ (forall x, x < next s -> x <> ret -> cells s' x = cells s x)
  /\ exists groups,
       cells s' ret = cells s ret ++ groups
       /\ Forall (fun a => a < next s') groups
       /\ map (cells s') groups
          = map (fun var =>
                   var :: filter (same_name (graph_in sg s0) var)
                                 (cells s variables_fathers))
                (filter (fun var =>
                           match filter (same_name (graph_in sg s0) var)
                                        (cells s variables_fathers) with
                           | [] => false
                           | _ :: _ => true
                           end) vars).
Proof.
  revert s. induction vars as [|var rest IH]; intros s Hret Hvf Hneq Hrun;
    simpl in Hrun.
  - unfold unit_run in Hrun. injection Hrun as _ <-.
    split; [lia|]. split; [auto|]. exists []. rewrite app_nil_r. auto.
  - unfold then_run in Hrun.
    destruct (run_own_variable sg ret variables_fathers var s) as [u1 s1] eqn:E1.
    pose proof (run_own_variable_spec s0 _ _ _ _ _ _ Hret E1) as Hstep.
    simpl.
    destruct (filter (same_name (graph_in sg s0) var)
                     (cells s variables_fathers)) as [|w ws] eqn:Eshadow.
    + subst s1. apply IH; assumption.
    + destruct Hstep as [Hn1 [Hr1 [Hg1 Ho1]]].
      assert (Hvf1 : cells s1 variables_fathers = cells s variables_fathers).
      { apply Ho1; [congruence | lia]. }
      destruct (IH s1) as [Hn [Ho [groups [Hr [Hall Hmap]]]]];
        [lia | lia | assumption | assumption |].
      split; [lia|]. split.
      * intros x Hx Hx'. rewrite Ho by lia. apply Ho1; [assumption | lia].
      * exists (next s :: groups). split; [|split].
        -- rewrite Hr, Hr1, <- app_assoc. reflexivity.
        -- constructor; [lia | assumption].
        -- simpl. rewrite Hmap, Hvf1. f_equal.
           rewrite Ho by lia. rewrite Eshadow. exact Hg1.
Qed.

(** A run of [detect_shadowing] leaves the lists of the store it starts
    in as they are, and returns a new list of new groups: the groups of
    the detector on the graph the store holds. *)
Lemma run_detect_shadowing_spec (contract : ContractRef)
      (s s' : Store) (ret : Address) :
  allocated sg s ->
  run_detect_shadowing sg contract s = (ret, s') ->
  next s <= next s'
  /\ (forall x, x < next s -> cells s' x = cells s x)
  /\ ret < next s'
  /\ Forall (fun a => a < next s') (cells s' ret)
  /\ groups_at s' ret = detect_shadowing (graph_in sg s) contract.
Proof.
  intros Halloc Hrun. destruct (Halloc contract) as [Hinh [Hvars _]].
  unfold run_detect_shadowing, then_run in Hrun.
  destruct (new_list [] s) as [r sa] eqn:Ea.
  destruct (new_list [] sa) as [vf sb] eqn:Eb.
  destruct (new_list_spec _ _ _ _ Ea) as [-> [Hna [Hra Hoa]]].
  destruct (new_list_spec _ _ _ _ Eb) as [-> [Hnb [Hvb Hob]]].
  unfold read, current_graph in Hrun. cbv beta iota in Hrun.
  assert (Hsb : forall x, x < next s -> cells sb x = cells s x).
  { intros x Hx. rewrite Hob, Hoa by lia. reflexivity. }
  rewrite (Hsb _ Hinh) in Hrun.
  destruct (for_each
              (cells s (StoredContract.inheritance (stored_contract_at sg contract)))
              (run_father sg (next sa)) sb) as [u1 sc] eqn:Ec.
  assert (Hvf : next s <= next sa) by lia.
  destruct (run_fathers_spec sg s Halloc (next sa) _ sb sc u1 Hvf Hsb Ec)
    as [Hnc [Hvc Hoc]].
  assert (Hsc : forall x, x < next s -> cells sc x = cells s x).
  { intros x Hx. rewrite Hoc by lia. now apply Hsb. }
  rewrite (Hsc _ Hvars) in Hrun.
  change (owned_by (graph_in sg sc) contract)
    with (owned_by (graph_in sg s) contract) in Hrun.
  destruct (for_each
              (filter (owned_by (graph_in sg s) contract)
                      (cells s (StoredContract.variables
                                  (stored_contract_at sg contract))))
              (run_own_variable sg (next s) (next sa)) sc)
    as [u2 sd] eqn:Ed.
  unfold unit_run in Hrun. injection Hrun as <- <-.
  assert (Hret : next s < next sc) by lia.
  assert (Hvf' : next sa < next sc) by lia.
  assert (Hneq : next s <> next sa) by lia.
  destruct (run_own_variables_spec s (next s) (next sa) _ sc sd u2
                                   Hret Hvf' Hneq Ed)
    as [Hnd [Hod [groups [Hrd [Hall Hmap]]]]].
  assert (Hret_c : cells sc (next s) = []).
  { rewrite Hoc, Hob by lia. exact Hra. }
  assert (Hvf_c : cells sc (next sa) = variables_fathers (graph_in sg s) contract).
  { rewrite Hvc, Hvb. simpl. symmetry. apply variables_fathers_flat_map. }
  rewrite Hret_c in Hrd. simpl in Hrd.
  split; [lia|]. split; [|split; [lia|split]].
  - intros x Hx. rewrite Hod by lia. now apply Hsc.
  - now rewrite Hrd.
  - unfold groups_at. rewrite Hrd, Hmap, Hvf_c.
    symmetry. apply detect_shadowing_map.
Qed.

End RunGroups.

Section RunBatch.

Variable sg : StoredGraph.
Context {json : Type} {detector : AbstractDetector json}.

Lemma allocated_later (s s' : Store) :
  next s <= next s' -> allocated sg s -> allocated sg s'.
Proof.
  intros Hle Halloc c. destruct (Halloc c) as [H1 [H2 [H3 H4]]].
  repeat split; lia.
Qed.

Lemma run_detect_from_spec (contracts : list ContractRef)
      (results : list json) (s s' : Store) (out : result (list json)) :
  allocated sg s ->
  run_detect_from sg results contracts s = (out, s') ->
  next s <= next s'
  /\ (forall x, x < next s -> cells s' x = cells s x)
  /\ out = Ok (results ++ batch_diagnostics (graph_in sg s) contracts).
Proof.
  revert results s.
  induction contracts as [|c rest IH]; intros results s Halloc Hrun;
    simpl in Hrun.
  - unfold unit_run in Hrun. injection Hrun as <- <-.
    simpl. rewrite app_nil_r. auto.
  - unfold then_run in Hrun.
    destruct (run_detect_shadowing sg c s) as [shadowing s1] eqn:E1.
    destruct (run_detect_shadowing_spec sg c s s1 shadowing Halloc E1)
      as [Hn1 [Ho1 [_ [_ Hgroups]]]].
    unfold current_graph in Hrun. cbv beta iota in Hrun.
    rewrite Hgroups in Hrun.
    pose proof (graph_in_stable sg s Halloc s1 Ho1) as Hsame.
    pose proof (detect_shadowing_reportable (graph_in sg s1) c) as Hall.
    rewrite (same_detect_shadowing _ _ Hsame) in Hall.
    assert (Hreport :
              match detect_shadowing (graph_in sg s) c with
              | [] => Ok results
              | _ :: _ => report_all (graph_in sg s1) results
                                     (detect_shadowing (graph_in sg s) c)
              end
              = Ok (results ++ contract_diagnostics (graph_in sg s) c)).
    { unfold contract_diagnostics.
      destruct (detect_shadowing (graph_in sg s) c) as [|grp grps] eqn:Eg.
      - simpl. now rewrite app_nil_r.
      - rewrite (report_all_ok _ _ _ Hall). reflexivity. }
    rewrite Hreport in Hrun.
    destruct (IH _ _ (allocated_later s s1 Hn1 Halloc) Hrun) as [Hn [Ho Hout]].
    split; [lia|]. split.
    + intros x Hx. rewrite Ho by lia. now apply Ho1.
    + rewrite Hout. simpl.
      rewrite (same_batch_diagnostics _ _ Hsame), <- app_assoc. reflexivity.
Qed.

End RunBatch.

(** C6.  Two runs of the detector, the second in the store the first one
    leaves, return the same groups in the same order, and the same holds
    for [_detect] and its entries.  A run changes no list of the store it
    starts in (it only adds lists), so the second run reads the graph the
    first one read, and the groups of the first run are still there after
    the second; what a run returns are the groups and entries computed
    from that graph. *)
Theorem C6_deterministic (sg : StoredGraph) (s : Store) (C : ContractRef)
        (json : Type) (detector : AbstractDetector json)
        (contracts : list ContractRef) :
  allocated sg s ->
  let '(ret1, s1) := run_detect_shadowing sg C s in
  let '(ret2, s2) := run_detect_shadowing sg C s1 in
  let '(out1, t1) := run__detect sg contracts s in
  let '(out2, t2) := run__detect sg contracts t1 in
  groups_at s2 ret2 = groups_at s1 ret1
  /\ groups_at s2 ret1 = groups_at s1 ret1
  /\ groups_at s1 ret1 = detect_shadowing (graph_in sg s) C
  /\ (forall a, a < next s -> cells s2 a = cells s a)
  /\ out2 = out1
  /\ out1 = _detect (graph_in sg s) contracts
  /\ (forall a, a < next s -> cells t2 a = cells s a).
Proof.
  intros Halloc.
  destruct (run_detect_shadowing sg C s) as [ret1 s1] eqn:E1.
  destruct (run_detect_shadowing sg C s1) as [ret2 s2] eqn:E2.
  destruct (run__detect sg contracts s) as [out1 t1] eqn:E3.
  destruct (run__detect sg contracts t1) as [out2 t2] eqn:E4.
  destruct (run_detect_shadowing_spec sg C s s1 ret1 Halloc E1)
    as [Hn1 [Ho1 [Hr1 [Hall1 Hg1]]]].
  pose proof (allocated_later sg s s1 Hn1 Halloc) as Halloc1.
  destruct (run_detect_shadowing_spec sg C s1 s2 ret2 Halloc1 E2)
    as [Hn2 [Ho2 [_ [_ Hg2]]]].
  pose proof (graph_in_stable sg s Halloc s1 Ho1) as Hsame1.
  unfold run__detect in E3, E4.
  destruct (run_detect_from_spec sg contracts [] s t1 out1 Halloc E3)
    as [Hm1 [Hp1 Hout1]].
  pose proof (allocated_later sg s t1 Hm1 Halloc) as Halloct.
  destruct (run_detect_from_spec sg contracts [] t1 t2 out2 Halloct E4)
    as [Hm2 [Hp2 Hout2]].
  pose proof (graph_in_stable sg s Halloc t1 Hp1) as Hsamet.
  split; [|split; [|split; [|split; [|split; [|split]]]]].
  - rewrite Hg2, Hg1. now apply same_detect_shadowing.
  - unfold groups_at. rewrite (Ho2 ret1 Hr1).
    apply map_ext_in. intros a Ha. apply Ho2.
    rewrite Forall_forall in Hall1. now apply Hall1.
  - exact Hg1.
  - intros a Ha. rewrite Ho2 by lia. now apply Ho1.
  - rewrite Hout2, Hout1. simpl. f_equal.
    now apply same_batch_diagnostics.
  - rewrite Hout1. simpl. symmetry. apply _detect_ok.
  - intros a Ha. rewrite Hp2 by lia. now apply Hp1.
Qed.

Lemma C6_deterministic_witness :
  let '(ret1, s1) :=
    run_detect_shadowing ChainStored.graph Chain.C ChainStored.store in
  let '(ret2, s2) := run_detect_shadowing ChainStored.graph Chain.C s1 in
  let '(out1, t1) :=
    @run__detect ChainStored.graph _ plain_entries
                 [Chain.A; Chain.B; Chain.C] ChainStored.store in
  let '(out2, t2) :=
    @run__detect ChainStored.graph _ plain_entries
                 [Chain.A; Chain.B; Chain.C] t1 in
  groups_at s2 ret2 = groups_at s1 ret1
  /\ groups_at s2 ret1 = groups_at s1 ret1
  /\ groups_at s1 ret1
     = detect_shadowing (graph_in ChainStored.graph ChainStored.store) Chain.C
  /\ (forall a, a < next ChainStored.store ->
                cells s2 a = cells ChainStored.store a)
  /\ out2 = out1
  /\ out1 = _detect (graph_in ChainStored.graph ChainStored.store)
                    [Chain.A; Chain.B; Chain.C]
  /\ (forall a, a < next ChainStored.store ->
                cells t2 a = cells ChainStored.store a).
Proof.
  apply (C6_deterministic ChainStored.graph ChainStored.store Chain.C
           _ plain_entries [Chain.A; Chain.B; Chain.C]).
  intros c. unfold ChainStored.graph, ChainStored.store.
  destruct c as [|[|[|[|c]]]]; simpl; repeat split; lia.
Defined.

(** C7, as the code has it.  The detector checks no input invariant and has
    no failure category.  On every graph [_detect] returns normally, with
    the entries of the groups of every contract of the batch; the entries
    of one contract do not depend on the other contracts of the batch; a
    variable with no declaring contract passes neither
    [v.contract == contract] nor [v.contract == father] and is in no
    group. *)
Theorem C7_no_invariant_check (g : Graph) (json : Type)
        (detector : AbstractDetector json) :
  (forall contracts, _detect g contracts = Ok (batch_diagnostics g contracts))
  /\ (forall before c after,
         batch_diagnostics g (before ++ c :: after)
         = batch_diagnostics g before
             ++ contract_diagnostics g c ++ batch_diagnostics g after)
  /\ (forall c grp v,
         In grp (detect_shadowing g c) ->
         StateVariable.contract (variable_at g v) = None ->
         ~ In v grp).
Proof.
  split; [|split].
  - apply _detect_ok.
  - intros before c after. unfold batch_diagnostics.
    now rewrite flat_map_app.
  - intros c grp v Hgrp Hnone Hin.
    pose proof (detect_shadowing_reportable g c) as Hall.
    rewrite Forall_forall in Hall. destruct (Hall grp Hgrp) as [_ Hown].
    rewrite Forall_forall in Hown. exact (Hown v Hin Hnone).
Qed.

(** C7, as stated, fails.  [Loop] is listed among its own ancestors: its
    analysis is not aborted, it returns a group in which [Loop.x] shadows
    itself, reported as an ordinary entry.  [Holder] lists a variable with
    no declaring contract: its result is the empty list, the result of a
    contract in which nothing is shadowed.  [_detect] returns normally on
    the batch. *)
Lemma C7_no_failure_category_counterexample :
  invariant_violation Malformed.graph Malformed.Loop
  /\ detect_shadowing Malformed.graph Malformed.Loop
     = [[Malformed.x_Loop; Malformed.x_Loop]]
  /\ invariant_violation Malformed.graph Malformed.Holder
  /\ detect_shadowing Malformed.graph Malformed.Holder = []
  /\ detect_shadowing Malformed.graph Malformed.Parent = []
  /\ _detect Malformed.graph
             [Malformed.Loop; Malformed.Holder; Malformed.Parent; Malformed.Child]
     = Ok [diagnostic Malformed.graph [Malformed.x_Loop; Malformed.x_Loop];
           diagnostic Malformed.graph [Malformed.y_Child; Malformed.y_Parent]].
Proof.
  repeat split.
  - left. simpl. now left.
  - right. exists Malformed.y_orphan. split; [simpl; now left | reflexivity].
Qed.

Lemma C10_one_group_per_own_entry_witness :
  exists shadowing : VariableRef -> bool,
    shadowing Chain.flag_C = true
    /\ shadowing Chain.flag_A = false
    /\ map (@hd_error VariableRef) (detect_shadowing Chain.graph Chain.C)
       = map Some (filter shadowing
                          (Contract.variables (contract_at Chain.graph Chain.C)))
    /\ length (filter (headed_by Chain.flag_C)
                      (detect_shadowing Chain.graph Chain.C)) <= 1.
Proof.
  destruct (C10_one_group_per_own_entry Chain.graph Chain.C)
    as [shadowing [Hspec [Hheads [_ Hone]]]].
  exists shadowing. split; [|split; [|split]].
  - apply Hspec. split; [reflexivity|].
    exists Chain.B, Chain.flag_B. repeat split; try (simpl; tauto).
    exists 0. split; [simpl; tauto | reflexivity].
  - destruct (shadowing Chain.flag_A) eqn:E; [|reflexivity].
    apply Hspec in E. destruct E as [E _]. discriminate E.
  - exact Hheads.
  - apply Hone. simpl. repeat constructor. simpl. tauto.
Defined.

Lemma C7_no_invariant_check_witness :
  _detect Malformed.graph [Malformed.Loop; Malformed.Child]
  = Ok (batch_diagnostics Malformed.graph [Malformed.Loop; Malformed.Child])
  /\ ~ In Malformed.y_orphan [Malformed.y_Child; Malformed.y_Parent].
Proof.
  destruct (C7_no_invariant_check Malformed.graph _ plain_entries)
    as [Hok [_ Hskip]].
  split.
  - apply Hok.
  - apply (Hskip Malformed.Child).
    + simpl. now left.
    + reflexivity.
Defined.

(** * Further properties of the detector *)

(** X1.  [detect_shadowing C] returns no group exactly when no variable
    declared by [C] has the name of a variable declared by a live contract
    of [C.inheritance]: nothing is reported without such a pair, and every
    such pair is reported. *)
Theorem X1_no_group_iff_no_collision (g : Graph) (C : ContractRef) :
  detect_shadowing g C = []
  <-> ~ exists F v w,
        In F (Contract.inheritance (contract_at g C))
        /\ live g F
        /\ In v (Contract.variables (contract_at g C))
        /\ StateVariable.contract (variable_at g v) = Some C
        /\ In w (Contract.variables (contract_at g F))
        /\ StateVariable.contract (variable_at g w) = Some F
        /\ StateVariable.name (variable_at g w)
           = StateVariable.name (variable_at g v).
Proof.
  split.
  - intros Hnil [F [v [w [HF [Hlive [Hv [Hvo [Hw [Hwo Hname]]]]]]]]].
    destruct (group_emitted g C F v w HF Hlive Hv Hvo Hw Hwo Hname) as [Hin _].
    rewrite Hnil in Hin. contradiction.
  - intros Hnone.
    destruct (detect_shadowing g C) as [|grp rest] eqn:E; [reflexivity|].
    exfalso. apply Hnone.
    assert (Hgrp : In grp (detect_shadowing g C)) by (rewrite E; now left).
    apply group_shape in Hgrp. destruct Hgrp as [v [_ [Hv Hne]]].
    apply in_own_variables in Hv. destruct Hv as [Hv Hvo].
    destruct (shadow_of g C v) as [|w ws] eqn:Ew; [congruence|].
    assert (Hw : In w (shadow_of g C v)) by (rewrite Ew; now left).
    pose proof (in_shadow_of_father g C v w Hw) as [F [HF [Hlive [HwF Hwo]]]].
    apply in_shadow_of in Hw. destruct Hw as [_ Hname].
    exists F, v, w. auto 10.
Qed.

Section Batch.

Context {A B : Type}.

Lemma flat_map_eq_nil (f : A -> list B) (l : list A) :
  flat_map f l = [] <-> forall x, In x l -> f x = [].
Proof.
  split.
  - induction l as [|x l IH]; simpl; intros H y Hy; [contradiction|].
    apply app_eq_nil in H. destruct H as [Hx Hl].
    destruct Hy as [<- | Hy]; auto.
  - apply flat_map_nil.
Qed.

End Batch.

(** X2.  [_detect] returns, without raising, one entry for each group of
    each contract of [self.contracts]: the number of entries is the total
    number of groups, and the result is empty exactly when
    [detect_shadowing] is empty on every contract of the batch. *)
Theorem X2_one_entry_per_group (g : Graph) (json : Type)
        (detector : AbstractDetector json) (contracts : list ContractRef) :
  exists results,
    _detect g contracts = Ok results
    /\ length results
       = list_sum (map (fun c => length (detect_shadowing g c)) contracts)
    /\ (results = []
        <-> forall c, In c contracts -> detect_shadowing g c = []).
Proof.
  exists (batch_diagnostics g contracts).
  split; [apply _detect_ok|]. unfold batch_diagnostics, contract_diagnostics.
  split.
  - rewrite length_flat_map. f_equal. apply map_ext. intros c.
    apply length_map.
  - rewrite flat_map_eq_nil. split; intros H c Hc.
    + apply map_eq_nil with (f := diagnostic g). auto.
    + rewrite (H c Hc). reflexivity.
Qed.

(** X6.  A variable declared by [C] is listed among the shadowed elements
    of a group of [detect_shadowing C] exactly when [C] is in its own
    inheritance sequence and is live: on such a graph the variable is
    reported as shadowing itself. *)
Theorem X6_self_shadowing_iff_self_ancestor (g : Graph) (C : ContractRef)
        (v : VariableRef) :
  In v (Contract.variables (contract_at g C)) ->
  StateVariable.contract (variable_at g v) = Some C ->
  ((exists grp, In grp (detect_shadowing g C) /\ In v (tl grp))
   <-> In C (Contract.inheritance (contract_at g C)) /\ live g C).
Proof.
  intros Hv Hvo. split.
  - intros [grp [Hgrp Hin]].
    apply group_shape in Hgrp. destruct Hgrp as [u [-> _]]. simpl in Hin.
    apply in_shadow_of_father in Hin. destruct Hin as [F [HF [Hlive [_ HFo]]]].
    rewrite Hvo in HFo. injection HFo as <-. auto.
  - intros [Hself Hlive].
    destruct (group_emitted g C C v v Hself Hlive Hv Hvo Hv Hvo eq_refl)
      as [Hgrp Hin].
    exists (v :: shadow_of g C v). auto.
Qed.

Lemma X6_self_shadowing_iff_self_ancestor_witness :
  ((exists grp, In grp (detect_shadowing Malformed.graph Malformed.Loop)
                /\ In Malformed.x_Loop (tl grp))
   <-> In Malformed.Loop
          (Contract.inheritance (contract_at Malformed.graph Malformed.Loop))
       /\ live Malformed.graph Malformed.Loop)
  /\ detect_shadowing Malformed.graph Malformed.Loop
     = [[Malformed.x_Loop; Malformed.x_Loop]].
Proof.
  split; [|reflexivity].
  apply (X6_self_shadowing_iff_self_ancestor Malformed.graph Malformed.Loop
           Malformed.x_Loop).
  - simpl. now left.
  - reflexivity.
Defined.

(** X7.  Shadowing accumulates down a hierarchy.  Let [F] be an ancestor
    of [C] whose own ancestors are all ancestors of [C], and let [C]
    declare a variable [v] with the name of a variable [u] that heads a
    group of [detect_shadowing F].  Then [v] heads a group of
    [detect_shadowing C] that lists every variable [u] shadows, and [u]
    itself when [F] is live. *)
Theorem X7_shadowing_accumulates (g : Graph) (C F : ContractRef)
        (v u : VariableRef) (shadowed_u : list VariableRef) :
  In F (Contract.inheritance (contract_at g C)) ->
  incl (Contract.inheritance (contract_at g F))
       (Contract.inheritance (contract_at g C)) ->
  In (u :: shadowed_u) (detect_shadowing g F) ->
  In v (Contract.variables (contract_at g C)) ->
  StateVariable.contract (variable_at g v) = Some C ->
  StateVariable.name (variable_at g v) = StateVariable.name (variable_at g u) ->
  exists shadowed_v,
    In (v :: shadowed_v) (detect_shadowing g C)
    /\ incl shadowed_u shadowed_v
    /\ (live g F -> In u shadowed_v).
Proof.
  intros HF Hincl Hu Hv Hvo Hname.
  apply group_inv in Hu. destruct Hu as [-> [Hu Hne]].
  apply in_own_variables in Hu. destruct Hu as [Hu Huo].
  assert (Hsub : incl (shadow_of g F u) (shadow_of g C v)).
  { intros w Hw.
    pose proof (in_shadow_of_father g F u w Hw) as [A [HA [Hlive [HwA Hwo]]]].
    apply in_shadow_of in Hw. destruct Hw as [_ Hwn].
    apply (group_emitted g C A v w); auto. congruence. }
  exists (shadow_of g C v). split; [|split].
  - apply in_detect_shadowing. exists v. split; [reflexivity|].
    split; [now apply in_own_variables|].
    intros E. destruct (shadow_of g F u) as [|w ws]; [congruence|].
    specialize (Hsub w (or_introl eq_refl)). rewrite E in Hsub. contradiction.
  - exact Hsub.
  - intros Hlive. apply (group_emitted g C F v u); auto.
Qed.

Lemma X7_shadowing_accumulates_witness :
  exists shadowed_v,
    In (Chain.flag_C :: shadowed_v) (detect_shadowing Chain.graph Chain.C)
    /\ incl [Chain.flag_A] shadowed_v
    /\ (live Chain.graph Chain.B -> In Chain.flag_B shadowed_v).
Proof.
  apply (X7_shadowing_accumulates Chain.graph Chain.C Chain.B
           Chain.flag_C Chain.flag_B [Chain.flag_A]).
  - simpl. now left.
  - intros x Hx. simpl in Hx. destruct Hx as [<- | []]. simpl. tauto.
  - simpl. now left.
  - simpl. now left.
  - reflexivity.
  - reflexivity.
Defined.

Section Occurrences.

Variable g : Graph.

Lemma count_occ_filter_kept (p : VariableRef -> bool) (l : list VariableRef)
      (w : VariableRef) :
  p w = true ->
  count_occ Nat.eq_dec (filter p l) w = count_occ Nat.eq_dec l w.
Proof.
  intros Hp. induction l as [|x l IH]; simpl; [reflexivity|].
  destruct (Nat.eq_dec x w) as [-> | Hneq].
  - rewrite Hp. simpl. destruct (Nat.eq_dec w w); [now rewrite IH | contradiction].
  - destruct (p x); simpl; [|exact IH].
    destruct (Nat.eq_dec x w); [contradiction | exact IH].
Qed.

Lemma count_occ_father_part (f F : ContractRef) (w : VariableRef) :
  StateVariable.contract (variable_at g w) = Some F ->
  count_occ Nat.eq_dec (father_part g f) w
  = if Nat.eq_dec f F
    then if any_implemented g F
         then count_occ Nat.eq_dec (Contract.variables (contract_at g F)) w
         else 0
    else 0.
Proof.
  intros Hwo. destruct (Nat.eq_dec f F) as [-> | Hneq].
  - unfold father_part. destruct (any_implemented g F); [|reflexivity].
    apply count_occ_filter_kept. now apply owned_by_spec.
  - apply count_occ_not_In. intros Hin. apply in_father_part in Hin.
    destruct Hin as [_ [_ Hin]]. congruence.
Qed.

End Occurrences.

(** X5.  The ancestors are not deduplicated.  A variable [w] declared by
    [F] is collected into [variables_fathers] once for each occurrence of
    [F] in [C.inheritance] and each occurrence of [w] in [F.variables] when
    [F] is live, and not at all when [F] is dead; the contracts that list
    [w] without declaring it add nothing. *)
Theorem X5_collected_occurrences (g : Graph) (C F : ContractRef)
        (w : VariableRef) :
  StateVariable.contract (variable_at g w) = Some F ->
  count_occ Nat.eq_dec (variables_fathers g C) w
  = if any_implemented g F
    then count_occ Nat.eq_dec (Contract.inheritance (contract_at g C)) F
         * count_occ Nat.eq_dec (Contract.variables (contract_at g F)) w
    else 0.
Proof.
  intros Hwo. rewrite variables_fathers_flat_map.
  induction (Contract.inheritance (contract_at g C)) as [|f fs IH]; simpl.
  - now destruct (any_implemented g F).
  - pose proof (count_occ_father_part g f F w Hwo) as Hf.
    unfold VariableRef, ContractRef in *.
    rewrite count_occ_app, IH, Hf.
    destruct (Nat.eq_dec f F); destruct (any_implemented g F); lia.
Qed.

Lemma X5_collected_occurrences_witness :
  count_occ Nat.eq_dec (variables_fathers Diamond.graph Diamond.D) Diamond.x_A
  = 1 * 1.
Proof.
  exact (X5_collected_occurrences Diamond.graph Diamond.D Diamond.A
           Diamond.x_A eq_refl).
Defined.

Section PermutationFacts.

Context {A B : Type}.

Lemma Permutation_filter_same (p : A -> bool) (l l' : list A) :
  Permutation l l' -> Permutation (filter p l) (filter p l').
Proof.
  induction 1 as [|x l l' _ IH|x y l|l l' l'' _ IH1 _ IH2]; simpl.
  - constructor.
  - destruct (p x); [now constructor | assumption].
  - destruct (p x), (p y); try reflexivity. apply perm_swap.
  - now transitivity (filter p l').
Qed.

Lemma flat_map_ext_on (f f' : A -> list B) (l : list A) :
  (forall x, In x l -> f x = f' x) -> flat_map f l = flat_map f' l.
Proof.
  induction l as [|x l IH]; simpl; intros H; [reflexivity|].
  rewrite (H x) by now left. rewrite IH; [reflexivity|].
  intros; apply H; now right.
Qed.

Lemma Forall2_map_on (R : B -> B -> Prop) (f f' : A -> B) (l : list A) :
  (forall x, In x l -> R (f x) (f' x)) -> Forall2 R (map f l) (map f' l).
Proof.
  induction l as [|x l IH]; simpl; intros H; constructor.
  - apply H. now left.
  - apply IH. intros; apply H; now right.
Qed.

End PermutationFacts.

(** ** What the result for a contract depends on *)

Section Locality.

Variables g1 g2 : Graph.
Variable C : ContractRef.

Hypothesis Hvariables :
  Contract.variables (contract_at g1 C) = Contract.variables (contract_at g2 C).
Hypothesis Hown :
  forall v, In v (Contract.variables (contract_at g1 C)) ->
            StateVariable.name (variable_at g1 v)
            = StateVariable.name (variable_at g2 v)
            /\ StateVariable.contract (variable_at g1 v)
               = StateVariable.contract (variable_at g2 v).
Hypothesis Hfathers :
  forall F, In F (Contract.inheritance (contract_at g1 C)) ->
            (live g1 F <-> live g2 F)
            /\ Contract.variables (contract_at g1 F)
               = Contract.variables (contract_at g2 F)
            /\ forall w, In w (Contract.variables (contract_at g1 F)) ->
                         StateVariable.name (variable_at g1 w)
                         = StateVariable.name (variable_at g2 w)
                         /\ StateVariable.contract (variable_at g1 w)
                            = StateVariable.contract (variable_at g2 w).

Lemma local_own_variables : own_variables g1 C = own_variables g2 C.
Proof.
  unfold own_variables. rewrite <- Hvariables. apply filter_ext_in.
  intros v Hv. unfold owned_by. destruct (Hown v Hv) as [_ E]. now rewrite E.
Qed.

Lemma local_any_implemented (F : ContractRef) :
  In F (Contract.inheritance (contract_at g1 C)) ->
  any_implemented g1 F = any_implemented g2 F.
Proof.
  intros HF. destruct (Hfathers F HF) as [Hlive _].
  rewrite <- !any_implemented_spec in Hlive.
  destruct (any_implemented g1 F), (any_implemented g2 F); intuition congruence.
Qed.

Lemma local_father_part (F : ContractRef) :
  In F (Contract.inheritance (contract_at g1 C)) ->
  father_part g1 F = father_part g2 F.
Proof.
  intros HF. unfold father_part. rewrite (local_any_implemented F HF).
  destruct (any_implemented g2 F); [|reflexivity].
  destruct (Hfathers F HF) as [_ [Hvars Hw]]. rewrite <- Hvars.
  apply filter_ext_in. intros w Hin. unfold owned_by.
  destruct (Hw w Hin) as [_ E]. now rewrite E.
Qed.

(** The variables collected along the ancestor list of [g1]. *)
Lemma local_collected :
  variables_fathers g1 C
  = flat_map (father_part g2) (Contract.inheritance (contract_at g1 C)).
Proof.
  rewrite variables_fathers_flat_map. apply flat_map_ext_on.
  exact local_father_part.
Qed.

Lemma local_same_name (var w : VariableRef) :
  In var (Contract.variables (contract_at g1 C)) ->
  In w (variables_fathers g1 C) ->
  same_name g1 var w = same_name g2 var w.
Proof.
  intros Hvar Hw. unfold same_name.
  destruct (Hown var Hvar) as [Evar _]. rewrite Evar.
  apply in_variables_fathers in Hw. destruct Hw as [F [HF [_ [Hin _]]]].
  destruct (Hfathers F HF) as [_ [_ Hnames]].
  destruct (Hnames w Hin) as [Ew _]. now rewrite Ew.
Qed.

Lemma local_shadow_of (var : VariableRef) :
  In var (Contract.variables (contract_at g1 C)) ->
  shadow_of g1 C var = filter (same_name g2 var) (variables_fathers g1 C).
Proof.
  intros Hvar. unfold shadow_of. apply filter_ext_in.
  intros w Hw. now apply local_same_name.
Qed.

Lemma in_own_listed (var : VariableRef) :
  In var (own_variables g1 C) ->
  In var (Contract.variables (contract_at g1 C)).
Proof. intros H. apply in_own_variables in H. tauto. Qed.

(** With the same ancestor list the groups are the same. *)
Lemma local_detect_shadowing :
  Contract.inheritance (contract_at g1 C)
  = Contract.inheritance (contract_at g2 C) ->
  detect_shadowing g1 C = detect_shadowing g2 C.
Proof.
  intros Hinh.
  assert (Hvf : variables_fathers g1 C = variables_fathers g2 C).
  { rewrite local_collected, Hinh. symmetry. apply variables_fathers_flat_map. }
  assert (Hshadow : forall var, In var (own_variables g1 C) ->
                                shadow_of g1 C var = shadow_of g2 C var).
  { intros var Hvar. rewrite (local_shadow_of var (in_own_listed var Hvar)).
    unfold shadow_of. now rewrite Hvf. }
  rewrite !detect_shadowing_map, <- local_own_variables.
  rewrite (filter_ext_in (is_shadowing g1 C) (is_shadowing g2 C)).
  - apply map_ext_in. intros var Hvar. apply filter_In in Hvar.
    destruct Hvar as [Hvar _]. now rewrite (Hshadow var Hvar).
  - intros var Hvar. unfold is_shadowing. now rewrite (Hshadow var Hvar).
Qed.

(** With a permuted ancestor list the shadowed lists are permuted. *)
Lemma local_shadow_of_permuted (var : VariableRef) :
  Permutation (Contract.inheritance (contract_at g1 C))
              (Contract.inheritance (contract_at g2 C)) ->
  In var (Contract.variables (contract_at g1 C)) ->
  Permutation (shadow_of g1 C var) (shadow_of g2 C var).
Proof.
  intros Hperm Hvar. rewrite (local_shadow_of var Hvar). unfold shadow_of.
  apply Permutation_filter_same.
  rewrite local_collected, (variables_fathers_flat_map g2 C).
  now apply Permutation_flat_map.
Qed.

Lemma local_is_shadowing_permuted (var : VariableRef) :
  Permutation (Contract.inheritance (contract_at g1 C))
              (Contract.inheritance (contract_at g2 C)) ->
  In var (Contract.variables (contract_at g1 C)) ->
  is_shadowing g1 C var = is_shadowing g2 C var.
Proof.
  intros Hperm Hvar.
  pose proof (local_shadow_of_permuted var Hperm Hvar) as Hp.
  unfold is_shadowing.
  destruct (shadow_of g1 C var), (shadow_of g2 C var); try reflexivity.
  - apply Permutation_nil in Hp. discriminate.
  - symmetry in Hp. apply Permutation_nil in Hp. discriminate.
Qed.

End Locality.

(** X3.  The result for [C] is read off [C.inheritance], [C.variables],
    the name and declaring contract of the variables [C] lists, and, for
    each contract of [C.inheritance], whether it is live, its variable list
    and the name and declaring contract of the variables it lists.  Two
    graphs that agree on these give the same groups for [C]: the functions
    and modifiers of [C] itself, the ancestors' own inheritance lists, the
    contracts outside [C.inheritance], and contract names and source
    positions do not matter. *)
Theorem X3_result_is_local (g1 g2 : Graph) (C : ContractRef) :
  Contract.inheritance (contract_at g1 C)
  = Contract.inheritance (contract_at g2 C) ->
  Contract.variables (contract_at g1 C)
  = Contract.variables (contract_at g2 C) ->
  (forall v, In v (Contract.variables (contract_at g1 C)) ->
             StateVariable.name (variable_at g1 v)
             = StateVariable.name (variable_at g2 v)
             /\ StateVariable.contract (variable_at g1 v)
                = StateVariable.contract (variable_at g2 v)) ->
  (forall F, In F (Contract.inheritance (contract_at g1 C)) ->
             (live g1 F <-> live g2 F)
             /\ Contract.variables (contract_at g1 F)
                = Contract.variables (contract_at g2 F)
             /\ forall w, In w (Contract.variables (contract_at g1 F)) ->
                          StateVariable.name (variable_at g1 w)
                          = StateVariable.name (variable_at g2 w)
                          /\ StateVariable.contract (variable_at g1 w)
                             = StateVariable.contract (variable_at g2 w)) ->
  detect_shadowing g1 C = detect_shadowing g2 C.
Proof.
  intros Hinh Hvariables Hown Hfathers.
  now apply local_detect_shadowing.
Qed.

Lemma X3_result_is_local_witness :
  detect_shadowing Wiki.graph Wiki.DerivedContract
  = detect_shadowing Variant.graph Variant.Derived.
Proof.
  apply (X3_result_is_local Wiki.graph Variant.graph Wiki.DerivedContract).
  - reflexivity.
  - reflexivity.
  - intros v Hv. simpl in Hv. destruct Hv as [<- | []]. split; reflexivity.
  - intros F HF. simpl in HF. destruct HF as [<- | []].
    split; [|split].
    + split; intros _; exists 0; (split; [simpl; now left | reflexivity]).
    + reflexivity.
    + intros w Hw. simpl in Hw. destruct Hw as [<- | []]. split; reflexivity.
Defined.

(** X4.  The order of [C.inheritance] decides the order inside a group and
    nothing else.  When two graphs agree as in X3 except that the ancestor
    list of [C] in one is a permutation of the list in the other, the two
    results have the same shadowing variables in the same order, and each
    group of one is a permutation of the group at the same place in the
    other. *)
Theorem X4_ancestor_order_only_orders (g1 g2 : Graph) (C : ContractRef) :
  Permutation (Contract.inheritance (contract_at g1 C))
              (Contract.inheritance (contract_at g2 C)) ->
  Contract.variables (contract_at g1 C)
  = Contract.variables (contract_at g2 C) ->
  (forall v, In v (Contract.variables (contract_at g1 C)) ->
             StateVariable.name (variable_at g1 v)
             = StateVariable.name (variable_at g2 v)
             /\ StateVariable.contract (variable_at g1 v)
                = StateVariable.contract (variable_at g2 v)) ->
  (forall F, In F (Contract.inheritance (contract_at g1 C)) ->
             (live g1 F <-> live g2 F)
             /\ Contract.variables (contract_at g1 F)
                = Contract.variables (contract_at g2 F)
             /\ forall w, In w (Contract.variables (contract_at g1 F)) ->
                          StateVariable.name (variable_at g1 w)
                          = StateVariable.name (variable_at g2 w)
                          /\ StateVariable.contract (variable_at g1 w)
                             = StateVariable.contract (variable_at g2 w)) ->
  map (@hd_error VariableRef) (detect_shadowing g1 C)
  = map (@hd_error VariableRef) (detect_shadowing g2 C)
  /\ Forall2 (@Permutation VariableRef)
             (detect_shadowing g1 C) (detect_shadowing g2 C).
Proof.
  intros Hperm Hvariables Hown Hfathers.
  assert (Hfilter : filter (is_shadowing g1 C) (own_variables g1 C)
                    = filter (is_shadowing g2 C) (own_variables g2 C)).
  { rewrite <- (local_own_variables g1 g2 C Hvariables Hown).
    apply filter_ext_in. intros var Hvar.
    apply local_is_shadowing_permuted; auto.
    now apply in_own_listed in Hvar. }
  split.
  - rewrite !heads_of_groups. now rewrite Hfilter.
  - rewrite !detect_shadowing_map, <- Hfilter.
    apply Forall2_map_on. intros var Hvar. apply perm_skip.
    apply filter_In in Hvar. destruct Hvar as [Hvar _].
    apply local_shadow_of_permuted; auto.
    now apply in_own_listed in Hvar.
Qed.

Lemma X4_ancestor_order_only_orders_witness :
  (map (@hd_error VariableRef) (detect_shadowing Chain.graph Chain.C)
   = map (@hd_error VariableRef) (detect_shadowing ChainReordered.graph Chain.C)
   /\ Forall2 (@Permutation VariableRef)
              (detect_shadowing Chain.graph Chain.C)
              (detect_shadowing ChainReordered.graph Chain.C))
  /\ detect_shadowing Chain.graph Chain.C
     = [[Chain.flag_C; Chain.flag_B; Chain.flag_A]]
  /\ detect_shadowing ChainReordered.graph Chain.C
     = [[Chain.flag_C; Chain.flag_A; Chain.flag_B]].
Proof.
  split; [|split; reflexivity].
  apply (X4_ancestor_order_only_orders Chain.graph ChainReordered.graph Chain.C).
  - simpl. apply perm_swap.
  - reflexivity.
  - intros v Hv. simpl in Hv. destruct Hv as [<- | []]. split; reflexivity.
  - intros F HF. simpl in HF.
    destruct HF as [<- | [<- | []]]; (split; [|split]);
      try reflexivity;
      try (split; intros _; exists 0; (split; [simpl; now left | reflexivity]));
      intros w Hw; simpl in Hw; destruct Hw as [<- | []]; split; reflexivity.
Defined.

Section ReportErrors.

Variable g : Graph.
Context {json : Type} {detector : AbstractDetector json}.

Lemma format_variable_raises (v : VariableRef) :
  StateVariable.contract (variable_at g v) = None ->
  format_variable g v = Raise AttributeError.
Proof.
  intros H. unfold format_variable, contract_name. now rewrite H.
Qed.

Lemma format_variable_total (v : VariableRef) :
  format_variable g v = Ok (variable_text g v)
  \/ (StateVariable.contract (variable_at g v) = None
      /\ format_variable g v = Raise AttributeError).
Proof.
  destruct (StateVariable.contract (variable_at g v)) as [c|] eqn:E.
  - left. apply format_variable_ok. unfold has_owner. congruence.
  - right. split; [reflexivity | now apply format_variable_raises].
Qed.

Lemma append_shadowed_raises (variables : list VariableRef) (info : string) :
  (exists v, In v variables /\ StateVariable.contract (variable_at g v) = None) ->
  append_shadowed g info variables = Raise AttributeError.
Proof.
  revert info. induction variables as [|var rest IH]; intros info [v [Hin Hv]].
  - contradiction.
  - simpl. destruct (format_variable_total var) as [Hok | [_ Hraise]].
    + rewrite Hok. simpl. apply IH. destruct Hin as [<- | Hin].
      * rewrite format_variable_raises in Hok by assumption. discriminate.
      * exists v. auto.
    + now rewrite Hraise.
Qed.

End ReportErrors.

(** X8.  The body of the loop of [_detect] over the groups raises
    [IndexError] on an empty list ([all_variables[0]]) and
    [AttributeError] on a list with a variable that has no declaring
    contract ([.contract.name]); on any other list it returns the entry
    built from the formatted description and the whole list.  No group of
    [detect_shadowing] is of the first two kinds. *)
Theorem X8_report_errors (g : Graph) (json : Type)
        (detector : AbstractDetector json) (all_variables : list VariableRef) :
  (all_variables = [] -> report g all_variables = Raise IndexError)
  /\ (all_variables <> [] ->
      (exists v, In v all_variables
                 /\ StateVariable.contract (variable_at g v) = None) ->
      report g all_variables = Raise AttributeError)
  /\ (all_variables <> [] ->
      (forall v, In v all_variables ->
                 StateVariable.contract (variable_at g v) <> None) ->
      report g all_variables = Ok (diagnostic g all_variables))
  /\ (forall c, In all_variables (detect_shadowing g c) ->
                all_variables <> []
                /\ forall v, In v all_variables ->
                             StateVariable.contract (variable_at g v) <> None).
Proof.
  split; [|split; [|split]].
  - intros ->. reflexivity.
  - destruct all_variables as [|shadow variables]; [congruence|].
    intros _ [v [Hin Hv]]. unfold report. simpl.
    destruct (format_variable_total g shadow) as [Hok | [_ Hraise]].
    + rewrite Hok. simpl.
      rewrite append_shadowed_raises; [reflexivity|].
      destruct Hin as [<- | Hin]; [|exists v; auto].
      rewrite format_variable_raises in Hok by assumption. discriminate.
    + now rewrite Hraise.
  - intros Hne Hown. apply report_ok; [assumption|].
    apply Forall_forall. exact Hown.
  - intros c Hin.
    pose proof (detect_shadowing_reportable g c) as Hall.
    rewrite Forall_forall in Hall. destruct (Hall _ Hin) as [Hne Hown].
    split; [assumption|]. now rewrite Forall_forall in Hown.
Qed.

Lemma X8_report_errors_witness :
  report Malformed.graph [] = @Raise (string * list VariableRef) IndexError
  /\ report Malformed.graph [Malformed.y_Child; Malformed.y_orphan]
     = @Raise (string * list VariableRef) AttributeError
  /\ report Malformed.graph [Malformed.y_Child; Malformed.y_Parent]
     = Ok (diagnostic Malformed.graph [Malformed.y_Child; Malformed.y_Parent]).
Proof.
  split; [|split].
  - apply (proj1 (X8_report_errors Malformed.graph _ plain_entries [])).
    reflexivity.
  - apply (proj1 (proj2 (X8_report_errors Malformed.graph _ plain_entries
                           [Malformed.y_Child; Malformed.y_orphan]))).
    + discriminate.
    + exists Malformed.y_orphan. split; [simpl; tauto | reflexivity].
  - apply (proj1 (proj2 (proj2 (X8_report_errors Malformed.graph _ plain_entries
                           [Malformed.y_Child; Malformed.y_Parent])))).
    + discriminate.
    + intros v Hv. simpl in Hv.
      destruct Hv as [<- | [<- | []]]; discriminate.
Defined.

(** X9.  The description of the entry of a group of [detect_shadowing C]
    starts with the name of [C] itself, the name and source position of
    the shadowing variable and [" shadows:"], followed by one line for each
    shadowed variable in the order of the group. *)
Theorem X9_entry_description (g : Graph) (json : Type)
        (detector : AbstractDetector json) (C : ContractRef)
        (all_variables : list VariableRef) :
  In all_variables (detect_shadowing g C) ->
  exists shadow variables,
    all_variables = shadow :: variables
    /\ report g all_variables
       = Ok (add_variables_to_json
               all_variables
               (generate_json_result
                  (((Contract.name (contract_at g C) ++ "."
                       ++ StateVariable.name (variable_at g shadow) ++ " ("
                       ++ StateVariable.source_mapping_str (variable_at g shadow)
                       ++ ")") ++ " shadows:" ++ newline)
                     ++ shadowed_text g variables)%string)).
Proof.
  intros Hin.
  pose proof (detect_shadowing_reportable g C) as Hall.
  rewrite Forall_forall in Hall. destruct (Hall _ Hin) as [Hne Hown].
  apply group_shape in Hin. destruct Hin as [v [-> [Hv _]]].
  exists v, (shadow_of g C v). split; [reflexivity|].
  rewrite (report_ok g _ Hne Hown).
  unfold diagnostic, info_text, variable_text, owner_name.
  apply in_own_variables in Hv. destruct Hv as [_ Hvo]. rewrite Hvo.
  reflexivity.
Qed.

Lemma X9_entry_description_witness :
  exists shadow variables,
    [Wiki.derived_owner; Wiki.base_owner] = shadow :: variables
    /\ report Wiki.graph [Wiki.derived_owner; Wiki.base_owner]
       = Ok (add_variables_to_json
               [Wiki.derived_owner; Wiki.base_owner]
               (generate_json_result
                  (((Contract.name (contract_at Wiki.graph Wiki.DerivedContract)
                       ++ "."
                       ++ StateVariable.name (variable_at Wiki.graph shadow)
                       ++ " ("
                       ++ StateVariable.source_mapping_str
                            (variable_at Wiki.graph shadow)
                       ++ ")") ++ " shadows:" ++ newline)
                     ++ shadowed_text Wiki.graph variables)%string)).
Proof.
  apply (X9_entry_description Wiki.graph _ plain_entries Wiki.DerivedContract
           [Wiki.derived_owner; Wiki.base_owner]).
  simpl. now left.
Defined.
